(** * spotipy.objects.token: OAuth2 credential records

    A shallow embedding of [spotipy/objects/token.py]: the two credential
    classes [ClientCredentials] and [UserCredentials], their constructor,
    [is_expired], [refresh] and the two factory class methods.

    Modelling conventions.
    - A value decoded from a JSON document is a [json]; Python's [None] is
      [JNull].  A JSON object at the top level (the payload handed to a
      constructor, the body returned by [response.json()]) is a
      [gmap string json], as the code only uses it through [d.get(k)],
      [d[k]] and [d[k] = v].
    - [time.time()] is read from an explicit argument [now].  A timestamp
      is the exact rational value of the (finite) double.  The subtraction
      of two floats is [float_sub]: the exact difference rounded to
      binary64 (to nearest, ties to even, overflowing to an infinity), and
      a comparison of a float with a number compares exact values, as
      Python does.
    - The HTTP session is a function from the URL and the form data of a
      POST to the response it yields.  It stands for the answer to one
      exchange: no statement below relies on one session answering two
      POSTs alike.
    - A method is a function from the state of [self] to a [run]: the
      states of [self] at the suspension points of the coroutine (the
      places where the event loop may run other code), the outcome (a value
      or a raised exception) and the state of [self] on exit. *)

From Stdlib Require Import QArith Qcanon SpecFloat.
From stdpp Require Import base numbers strings list gmap.

Local Open Scope Z_scope.

(** ** Python values *)

#[warnings="-register-all"]
Inductive json : Type :=
  | JNull
  | JBool (b : bool)
  | JInt (n : Z)
  | JFloat (q : Qc)
  | JStr (s : string)
  | JArr (l : list json)
  | JObj (l : list (string * json)).

(** [bool(v)]: [None], [False], zero, and the empty string, list and dict
    are false; every other value is true. *)
Definition truthy (v : json) : bool :=
  match v with
  | JNull => false
  | JBool b => b
  | JInt n => negb (bool_decide (n = 0))
  | JFloat q => negb (bool_decide (q = 0%Qc))
  | JStr s => negb (bool_decide (s = ""%string))
  | JArr l => negb (bool_decide (l = []))
  | JObj l => negb (bool_decide (l = []))
  end.

(** [aiohttp.ClientResponse]: the status line and the document that
    [await response.json()] decodes. *)
Record ClientResponse : Type := {
  status : Z;
  json_body : gmap string json
}.

(** [aiohttp.ClientSession.post(url=..., data=...)]. *)
Definition ClientSession : Type := string → gmap string json → ClientResponse.

(** ** Exceptions *)

Inductive exn : Type :=
  | AuthenticationError (response : ClientResponse) (data : gmap string json)
  | KeyError (key : string)
  | TypeError.

(** [type(e).__name__] *)
Definition exn_name (e : exn) : string :=
  match e with
  | AuthenticationError _ _ => "AuthenticationError"
  | KeyError _ => "KeyError"
  | TypeError => "TypeError"
  end.

Inductive result (A : Type) : Type :=
  | Ok (a : A)
  | Raise (e : exn).
Arguments Ok {A} a.
Arguments Raise {A} e.

Global Instance result_ret : MRet result := λ A a, Ok a.
Global Instance result_bind : MBind result := λ A B f m,
  match m with
  | Ok a => f a
  | Raise e => Raise e
  end.

(** [d.get(k)] *)
Definition dict_get (d : gmap string json) (k : string) : json :=
  default JNull (d !! k).

(** [d[k]] *)
Definition dict_getitem (d : gmap string json) (k : string) : result json :=
  match d !! k with
  | Some v => Ok v
  | None => Raise (KeyError k)
  end.

(** ** Floats

    The result of a float operation on finite doubles: the exact value of a
    finite double, or an infinity. *)
Variant efloat : Type :=
  | Finite (q : Qc)
  | Infinite (negative : bool).

(** The integer nearest to [p / d], the even one of the two when [p / d]
    lies halfway ([0 < d]). *)
Definition rne (p d : Z) : Z :=
  match 2 * (p mod d) ?= d with
  | Lt => p / d
  | Eq => if Z.even (p / d) then p / d else p / d + 1
  | Gt => p / d + 1
  end.

(** Every finite binary64 number is an integer multiple of [2^-1074], below
    [2^1024] in magnitude. *)
Definition scale : Z := 2 ^ 1074.
Definition limit : Z := 2 ^ 2098.

(** The binary64 number nearest to [a / b > 0], in units of [2^-1074]: with
    [k] the binary logarithm of [a / b] in these units, the result keeps 53
    significant bits, that is, it is a multiple of [2^(k - 52)] (of the
    unit itself for subnormal numbers). *)
Definition round_pos (a b : Z) : Z :=
  let A := a * scale in
  let e := Z.max (Z.log2 (A / b) - 52) 0 in
  rne A (b * 2 ^ e) * 2 ^ e.

Definition of_scaled (N : Z) : Qc := Q2Qc (N # Z.to_pos scale).

(** Rounding of [a / b] or of its opposite, with overflow. *)
Definition round_signed (negative : bool) (a b : Z) : efloat :=
  if limit <=? round_pos a b then Infinite negative
  else Finite (of_scaled (if negative then - round_pos a b else round_pos a b)).

(** Rounding to binary64, to nearest, ties to even. *)
Definition round64 (q : Qc) : efloat :=
  match Qnum q with
  | Z0 => Finite 0
  | Zpos a => round_signed false (Zpos a) (Zpos (Qden q))
  | Zneg a => round_signed true (Zpos a) (Zpos (Qden q))
  end.

(** [x - y] on floats. *)
Definition float_sub (x y : Qc) : efloat := round64 (x - y).

(** [x >= q] for a float result [x] and an exact number [q]. *)
Definition efloat_ge (x : efloat) (q : Qc) : Prop :=
  match x with
  | Finite d => (q ≤ d)%Qc
  | Infinite negative => negative = false
  end.

Global Instance efloat_ge_dec (x : efloat) (q : Qc) : Decision (efloat_ge x q) :=
  match x with
  | Finite d => decide (q ≤ d)%Qc
  | Infinite negative => decide (negative = false)
  end.

(** [x >= v] for a float [x]: numbers (and booleans, which are integers)
    compare by value, anything else is a [TypeError]. *)
Definition float_ge (x : efloat) (v : json) : result bool :=
  match v with
  | JInt n => Ok (bool_decide (efloat_ge x (Qc_of_Z n)))
  | JFloat q => Ok (bool_decide (efloat_ge x q))
  | JBool b => Ok (bool_decide (efloat_ge x (Qc_of_Z (Z.b2z b))))
  | JNull | JStr _ | JArr _ | JObj _ => Raise TypeError
  end.

(** The value of a float of the Standard Library's specification of
    IEEE 754 arithmetic ([None] for a NaN). *)
Definition spec_float_value (x : spec_float) : option efloat :=
  match x with
  | S754_zero _ => Some (Finite 0)
  | S754_infinity s => Some (Infinite s)
  | S754_nan => None
  | S754_finite s m e =>
      Some (Finite (Q2Qc (if e <? 0
                          then cond_Zopp s (Zpos m) # Z.to_pos (2 ^ (- e))
                          else inject_Z (cond_Zopp s (Zpos m) * 2 ^ e))))
  end.

(** The double [m * 2^e]. *)
Definition double (m e : Z) : Qc :=
  Q2Qc (if e <? 0 then m # Z.to_pos (2 ^ (- e)) else inject_Z (m * 2 ^ e)).

(** ** Coroutines over the state of [self] *)

Record run (S A : Type) : Type := Run {
  seen : list S;
  outcome : result A;
  final : S
}.
Arguments Run {S A} seen outcome final.
Arguments seen {S A} r.
Arguments outcome {S A} r.
Arguments final {S A} r.

Definition coro (S A : Type) : Type := S → run S A.

Global Instance coro_ret {S} : MRet (coro S) := λ A a s, Run [] (Ok a) s.
Global Instance coro_bind {S} : MBind (coro S) := λ A B f m s,
  match m s with
  | Run tr (Ok a) s1 =>
      match f a s1 with
      | Run tr' o s2 => Run (tr ++ tr') o s2
      end
  | Run tr (Raise e) s1 => Run tr (Raise e) s1
  end.

Definition raise {S A} (e : exn) : coro S A := λ s, Run [] (Raise e) s.
Definition lift {S A} (r : result A) : coro S A := λ s, Run [] r s.
Definition getattr {S A} (f : S → A) : coro S A := λ s, Run [] (Ok (f s)) s.
Definition setattr {S} (upd : S → S) : coro S () := λ s, Run [] (Ok ()) (upd s).

(** [await e]: the coroutine is suspended with [self] as it stands. *)
Definition await {S A} (a : A) : coro S A := λ s, Run [s] (Ok a) s.

(** [async with cm as x: body]: [__aenter__] is awaited, the body runs, and
    [__aexit__] is awaited whether the body returned or raised; it does not
    swallow the exception. *)
Definition async_with {S A B} (cm : coro S A) (body : A → coro S B) : coro S B :=
  λ s,
  match cm s with
  | Run tr (Ok x) s1 =>
      match body x s1 with
      | Run tr' o s2 => Run (tr ++ tr' ++ [s2]) o s2
      end
  | Run tr (Raise e) s1 => Run tr (Raise e) s1
  end.

Definition post {S} (session : ClientSession) (url : string)
    (data : gmap string json) : coro S ClientResponse :=
  await (session url data).

Definition TOKEN_URL : string := "https://accounts.spotify.com/api/token".

(** ** ClientCredentials *)

Module ClientCredentials.

Record t : Type := {
  _access_token : json;
  _token_type : json;
  _expires_in : json;
  _client_id : string;
  _client_secret : string;
  _last_authorized_time : Qc
}.

Definition set_access_token (v : json) (self : t) : t :=
  {| _access_token := v;
     _token_type := _token_type self;
     _expires_in := _expires_in self;
     _client_id := _client_id self;
     _client_secret := _client_secret self;
     _last_authorized_time := _last_authorized_time self |}.

Definition set_token_type (v : json) (self : t) : t :=
  {| _access_token := _access_token self;
     _token_type := v;
     _expires_in := _expires_in self;
     _client_id := _client_id self;
     _client_secret := _client_secret self;
     _last_authorized_time := _last_authorized_time self |}.

Definition set_expires_in (v : json) (self : t) : t :=
  {| _access_token := _access_token self;
     _token_type := _token_type self;
     _expires_in := v;
     _client_id := _client_id self;
     _client_secret := _client_secret self;
     _last_authorized_time := _last_authorized_time self |}.

Definition set_last_authorized_time (v : Qc) (self : t) : t :=
  {| _access_token := _access_token self;
     _token_type := _token_type self;
     _expires_in := _expires_in self;
     _client_id := _client_id self;
     _client_secret := _client_secret self;
     _last_authorized_time := v |}.

(** [__init__]; an exception leaves no object behind. *)
Definition __init__ (data : gmap string json) (client_id client_secret : string)
    (now : Qc) : result t :=
  access_token ← dict_getitem data "access_token";
  token_type ← dict_getitem data "token_type";
  expires_in ← dict_getitem data "expires_in";
  mret {| _access_token := access_token;
          _token_type := token_type;
          _expires_in := expires_in;
          _client_id := client_id;
          _client_secret := client_secret;
          _last_authorized_time := now |}.

Definition access_token (self : t) : json := _access_token self.
Definition token_type (self : t) : json := _token_type self.
Definition expires_in (self : t) : json := _expires_in self.

Definition is_expired (now : Qc) : coro t bool :=
  last ← getattr _last_authorized_time;
  lifetime ← getattr expires_in;
  lift (float_ge (float_sub now last) lifetime).

(** The form of the client-credentials grant. *)
Definition grant (client_id client_secret : string) : gmap string json :=
  {[ "grant_type" := JStr "client_credentials";
     "client_id" := JStr client_id;
     "client_secret" := JStr client_secret ]}.
Global Arguments grant : simpl never.

Definition refresh (session : ClientSession) (now : Qc) : coro t () :=
  client_id ← getattr _client_id;
  client_secret ← getattr _client_secret;
  let data := grant client_id client_secret in
  async_with (post session TOKEN_URL data) (λ response,
    data ← await (json_body response);
    if truthy (dict_get data "error")
    then raise (AuthenticationError response data)
    else
      v ← lift (dict_getitem data "access_token");
      setattr (set_access_token v);;
      v ← lift (dict_getitem data "token_type");
      setattr (set_token_type v);;
      v ← lift (dict_getitem data "expires_in");
      setattr (set_expires_in v);;
      setattr (set_last_authorized_time now)).

(** A class method: there is no [self], the state is [()]. *)
Definition from_client_secret (client_id client_secret : string)
    (session : ClientSession) (now : Qc) : coro () t :=
  let data := grant client_id client_secret in
  async_with (post session TOKEN_URL data) (λ response,
    data ← await (json_body response);
    if truthy (dict_get data "error")
    then raise (AuthenticationError response data)
    else lift (__init__ data client_id client_secret now)).

End ClientCredentials.

(** ** UserCredentials *)

Module UserCredentials.

Record t : Type := {
  _access_token : json;
  _token_type : json;
  _expires_in : json;
  _scope : json;
  _refresh_token : json;
  _client_id : string;
  _client_secret : string;
  _last_authorized_time : Qc
}.

Definition set_access_token (v : json) (self : t) : t :=
  {| _access_token := v;
     _token_type := _token_type self;
     _expires_in := _expires_in self;
     _scope := _scope self;
     _refresh_token := _refresh_token self;
     _client_id := _client_id self;
     _client_secret := _client_secret self;
     _last_authorized_time := _last_authorized_time self |}.

Definition set_token_type (v : json) (self : t) : t :=
  {| _access_token := _access_token self;
     _token_type := v;
     _expires_in := _expires_in self;
     _scope := _scope self;
     _refresh_token := _refresh_token self;
     _client_id := _client_id self;
     _client_secret := _client_secret self;
     _last_authorized_time := _last_authorized_time self |}.

Definition set_scope (v : json) (self : t) : t :=
  {| _access_token := _access_token self;
     _token_type := _token_type self;
     _expires_in := _expires_in self;
     _scope := v;
     _refresh_token := _refresh_token self;
     _client_id := _client_id self;
     _client_secret := _client_secret self;
     _last_authorized_time := _last_authorized_time self |}.

Definition set_expires_in (v : json) (self : t) : t :=
  {| _access_token := _access_token self;
     _token_type := _token_type self;
     _expires_in := v;
     _scope := _scope self;
     _refresh_token := _refresh_token self;
     _client_id := _client_id self;
     _client_secret := _client_secret self;
     _last_authorized_time := _last_authorized_time self |}.

Definition set_last_authorized_time (v : Qc) (self : t) : t :=
  {| _access_token := _access_token self;
     _token_type := _token_type self;
     _expires_in := _expires_in self;
     _scope := _scope self;
     _refresh_token := _refresh_token self;
     _client_id := _client_id self;
     _client_secret := _client_secret self;
     _last_authorized_time := v |}.

(** [__init__]: [scope] is read with [data["scope"]], [refresh_token]
    with [data.get("refresh_token")]. *)
Definition __init__ (data : gmap string json) (client_id client_secret : string)
    (now : Qc) : result t :=
  access_token ← dict_getitem data "access_token";
  token_type ← dict_getitem data "token_type";
  expires_in ← dict_getitem data "expires_in";
  scope ← dict_getitem data "scope";
  let refresh_token := dict_get data "refresh_token" in
  mret {| _access_token := access_token;
          _token_type := token_type;
          _expires_in := expires_in;
          _scope := scope;
          _refresh_token := refresh_token;
          _client_id := client_id;
          _client_secret := client_secret;
          _last_authorized_time := now |}.

Definition access_token (self : t) : json := _access_token self.
Definition token_type (self : t) : json := _token_type self.
Definition scope (self : t) : json := _scope self.
Definition expires_in (self : t) : json := _expires_in self.

Definition is_expired (now : Qc) : coro t bool :=
  last ← getattr _last_authorized_time;
  lifetime ← getattr expires_in;
  lift (float_ge (float_sub now last) lifetime).

(** The form of the refresh-token grant. *)
Definition grant (refresh_token : json) (client_id client_secret : string)
    : gmap string json :=
  {[ "grant_type" := JStr "refresh_token";
     "refresh_token" := refresh_token;
     "client_id" := JStr client_id;
     "client_secret" := JStr client_secret ]}.
Global Arguments grant : simpl never.

Definition refresh (session : ClientSession) (now : Qc) : coro t () :=
  refresh_token ← getattr _refresh_token;
  client_id ← getattr _client_id;
  client_secret ← getattr _client_secret;
  let data := grant refresh_token client_id client_secret in
  async_with (post session TOKEN_URL data) (λ response,
    data ← await (json_body response);
    if truthy (dict_get data "error")
    then raise (AuthenticationError response data)
    else
      v ← lift (dict_getitem data "access_token");
      setattr (set_access_token v);;
      v ← lift (dict_getitem data "token_type");
      setattr (set_token_type v);;
      v ← lift (dict_getitem data "scope");
      setattr (set_scope v);;
      v ← lift (dict_getitem data "expires_in");
      setattr (set_expires_in v);;
      setattr (set_last_authorized_time now)).

Definition from_refresh_token (client_id client_secret : string)
    (session : ClientSession) (refresh_token : string) (now : Qc) : coro () t :=
  let data := grant (JStr refresh_token) client_id client_secret in
  async_with (post session TOKEN_URL data) (λ response,
    data ← await (json_body response);
    if truthy (dict_get data "error")
    then raise (AuthenticationError response data)
    else
      let data := <["refresh_token" := JStr refresh_token]> data in
      lift (__init__ data client_id client_secret now)).

End UserCredentials.

(** ** Properties of outcomes and runs *)

(** The error check of the four network operations looks at the decoded
    body only. *)
Definition signals_error (body : gmap string json) : bool :=
  truthy (dict_get body "error").

Definition raises_AuthenticationError {A} (r : result A) : Prop :=
  ∃ e, r = Raise e ∧ exn_name e = "AuthenticationError"%string.

(** No operation of the module raises an exception of this name. *)
Definition raises_ValidationError {A} (r : result A) : Prop :=
  ∃ e, r = Raise e ∧ exn_name e = "ValidationError"%string.

(** Every state of [self] that other code can observe during a call: at
    the suspension points and on exit. *)
Definition observable {S A} (r : run S A) : list S := seen r ++ [final r].

(** A coroutine preserves [P] when, started in a state satisfying [P],
    every state it is suspended in and the state it exits in satisfy [P]. *)
Definition preserves {S A} (P : S → Prop) (m : coro S A) : Prop :=
  ∀ s, P s → Forall P (seen (m s)) ∧ P (final (m s)).

Section client_runs_def.
Import ClientCredentials.

(** The keys [__init__] reads with [data[...]], in the order it reads
    them. *)
Definition client_required : list string :=
  ["access_token"; "token_type"; "expires_in"]%string.

(** The response to the POST that [refresh] sends for [self]. *)
Definition client_request (session : ClientSession) (self : t) : ClientResponse :=
  session TOKEN_URL (grant (_client_id self) (_client_secret self)).

(** What a refresh makes of [self] when the body passes the error check
    and carries the three fields. *)
Definition client_refreshed (a ty ex : json) (now : Qc) (self : t) : t :=
  set_last_authorized_time now
    (set_expires_in ex (set_token_type ty (set_access_token a self))).

(** The three ways a refresh can go: the body signals an error; a field
    is missing (the fields before it are already stored); all is well. *)
Inductive client_refresh_case (session : ClientSession) (now : Qc) (self : t)
    : run t () → Prop :=
  | client_refresh_rejected :
      let response := client_request session self in
      signals_error (json_body response) = true →
      client_refresh_case session now self
        (Run [self; self; self]
             (Raise (AuthenticationError response (json_body response))) self)
  | client_refresh_incomplete k s' :
      let response := client_request session self in
      signals_error (json_body response) = false →
      json_body response !! k = None →
      _expires_in s' = _expires_in self →
      _last_authorized_time s' = _last_authorized_time self →
      client_refresh_case session now self
        (Run [self; self; s'] (Raise (KeyError k)) s')
  | client_refresh_done a ty ex :
      let response := client_request session self in
      signals_error (json_body response) = false →
      json_body response !! "access_token" = Some a →
      json_body response !! "token_type" = Some ty →
      json_body response !! "expires_in" = Some ex →
      client_refresh_case session now self
        (Run [self; self; client_refreshed a ty ex now self] (Ok ())
             (client_refreshed a ty ex now self)).
End client_runs_def.

Section user_runs_def.
Import UserCredentials.

Definition user_required : list string :=
  ["access_token"; "token_type"; "expires_in"; "scope"]%string.

Definition user_request (session : ClientSession) (self : t) : ClientResponse :=
  session TOKEN_URL
    (grant (_refresh_token self) (_client_id self) (_client_secret self)).

Definition user_refreshed (a ty sc ex : json) (now : Qc) (self : t) : t :=
  set_last_authorized_time now
    (set_expires_in ex
       (set_scope sc (set_token_type ty (set_access_token a self)))).

Inductive user_refresh_case (session : ClientSession) (now : Qc) (self : t)
    : run t () → Prop :=
  | user_refresh_rejected :
      let response := user_request session self in
      signals_error (json_body response) = true →
      user_refresh_case session now self
        (Run [self; self; self]
             (Raise (AuthenticationError response (json_body response))) self)
  | user_refresh_incomplete k s' :
      let response := user_request session self in
      signals_error (json_body response) = false →
      json_body response !! k = None →
      _expires_in s' = _expires_in self →
      _last_authorized_time s' = _last_authorized_time self →
      user_refresh_case session now self
        (Run [self; self; s'] (Raise (KeyError k)) s')
  | user_refresh_done a ty sc ex :
      let response := user_request session self in
      signals_error (json_body response) = false →
      json_body response !! "access_token" = Some a →
      json_body response !! "token_type" = Some ty →
      json_body response !! "scope" = Some sc →
      json_body response !! "expires_in" = Some ex →
      user_refresh_case session now self
        (Run [self; self; user_refreshed a ty sc ex now self] (Ok ())
             (user_refreshed a ty sc ex now self)).
End user_runs_def.

(** ** Worked runs *)

Definition const_session (r : ClientResponse) : ClientSession := λ _ _, r.

Definition client0 : ClientCredentials.t :=
  {| ClientCredentials._access_token := JStr "AT0";
     ClientCredentials._token_type := JStr "Bearer";
     ClientCredentials._expires_in := JInt 3600;
     ClientCredentials._client_id := "id";
     ClientCredentials._client_secret := "secret";
     ClientCredentials._last_authorized_time := Qc_of_Z 1000 |}.

Definition user0 : UserCredentials.t :=
  {| UserCredentials._access_token := JStr "AT0";
     UserCredentials._token_type := JStr "Bearer";
     UserCredentials._expires_in := JInt 3600;
     UserCredentials._scope := JStr "user-read";
     UserCredentials._refresh_token := JStr "RT1";
     UserCredentials._client_id := "id";
     UserCredentials._client_secret := "secret";
     UserCredentials._last_authorized_time := Qc_of_Z 1000 |}.

Definition body_AT1 : gmap string json :=
  {[ "access_token" := JStr "AT1"; "token_type" := JStr "Bearer";
     "expires_in" := JInt 3600 ]}.

Definition body_AT2 : gmap string json :=
  {[ "access_token" := JStr "AT2"; "token_type" := JStr "Bearer";
     "expires_in" := JInt 3600; "scope" := JStr "user-read" ]}.

Definition body_invalid_grant : gmap string json :=
  {[ "error" := JStr "invalid_grant" ]}.

Definition resp_ok (body : gmap string json) : ClientResponse :=
  {| status := 200; json_body := body |}.

Definition resp_bad (body : gmap string json) : ClientResponse :=
  {| status := 400; json_body := body |}.

Definition body_zero_lifetime : gmap string json :=
  {[ "access_token" := JStr "AT3"; "token_type" := JStr "Bearer";
     "expires_in" := JInt 0; "scope" := JStr "" ]}.

(** [client0] after a refresh answered with [body_AT1] at time 2000; also
    what the constructor and the factory build from that body. *)
Definition client1 : ClientCredentials.t :=
  {| ClientCredentials._access_token := JStr "AT1";
     ClientCredentials._token_type := JStr "Bearer";
     ClientCredentials._expires_in := JInt 3600;
     ClientCredentials._client_id := "id";
     ClientCredentials._client_secret := "secret";
     ClientCredentials._last_authorized_time := Qc_of_Z 2000 |}.

(** [user0] after a refresh answered with [body_AT2] at time 2000. *)
Definition user1 : UserCredentials.t :=
  {| UserCredentials._access_token := JStr "AT2";
     UserCredentials._token_type := JStr "Bearer";
     UserCredentials._expires_in := JInt 3600;
     UserCredentials._scope := JStr "user-read";
     UserCredentials._refresh_token := JStr "RT1";
     UserCredentials._client_id := "id";
     UserCredentials._client_secret := "secret";
     UserCredentials._last_authorized_time := Qc_of_Z 2000 |}.

(** What the constructor builds from [body_AT2], which has no
    [refresh_token]. *)
Definition user2 : UserCredentials.t :=
  {| UserCredentials._access_token := JStr "AT2";
     UserCredentials._token_type := JStr "Bearer";
     UserCredentials._expires_in := JInt 3600;
     UserCredentials._scope := JStr "user-read";
     UserCredentials._refresh_token := JNull;
     UserCredentials._client_id := "id";
     UserCredentials._client_secret := "secret";
     UserCredentials._last_authorized_time := Qc_of_Z 2000 |}.

(** What the constructors build from [body_zero_lifetime] at time 7. *)
Definition client_zero : ClientCredentials.t :=
  {| ClientCredentials._access_token := JStr "AT3";
     ClientCredentials._token_type := JStr "Bearer";
     ClientCredentials._expires_in := JInt 0;
     ClientCredentials._client_id := "id";
     ClientCredentials._client_secret := "secret";
     ClientCredentials._last_authorized_time := Qc_of_Z 7 |}.

Definition user_zero : UserCredentials.t :=
  {| UserCredentials._access_token := JStr "AT3";
     UserCredentials._token_type := JStr "Bearer";
     UserCredentials._expires_in := JInt 0;
     UserCredentials._scope := JStr "";
     UserCredentials._refresh_token := JNull;
     UserCredentials._client_id := "id";
     UserCredentials._client_secret := "secret";
     UserCredentials._last_authorized_time := Qc_of_Z 7 |}.

Definition resp_invalid_grant : ClientResponse := resp_bad body_invalid_grant.

Definition session_invalid_grant : ClientSession := const_session resp_invalid_grant.

(** A body with no [error] key delivered with status 400, and the session
    that answers with it. *)
Definition session_400_AT2 : ClientSession := const_session (resp_bad body_AT2).

(** A body whose [error] is the empty string, delivered with status 400. *)
Definition body_empty_error : gmap string json :=
  <["error" := JStr ""]> body_AT2.

Definition body_invalid_client : gmap string json :=
  {[ "error" := JStr "invalid_client";
     "error_description" := JStr "bad secret" ]}.

(** The error body delivered with status 200. *)
Definition session_200_invalid_client : ClientSession :=
  const_session (resp_ok body_invalid_client).

(** What [from_refresh_token] builds from [body_AT2] and the refresh token
    ["RT9"] at time 2000. *)
Definition user9 : UserCredentials.t :=
  {| UserCredentials._access_token := JStr "AT2";
     UserCredentials._token_type := JStr "Bearer";
     UserCredentials._expires_in := JInt 3600;
     UserCredentials._scope := JStr "user-read";
     UserCredentials._refresh_token := JStr "RT9";
     UserCredentials._client_id := "id";
     UserCredentials._client_secret := "secret";
     UserCredentials._last_authorized_time := Qc_of_Z 2000 |}.

(** A body that echoes another refresh token. *)
Definition body_rotated : gmap string json :=
  <["refresh_token" := JStr "RT2"]> body_AT2.

(** A payload with the access token only. *)
Definition body_token_only : gmap string json :=
  {[ "access_token" := JStr "AT1" ]}.

(** ** Further vocabulary *)

(** The values a float can be compared with. *)
Definition is_number (v : json) : bool :=
  match v with
  | JInt _ | JFloat _ | JBool _ => true
  | JNull | JStr _ | JArr _ | JObj _ => false
  end.

(** The keys of the response body that [refresh] reads, for each class. *)
Definition client_read : list string :=
  ["error"; "access_token"; "token_type"; "expires_in"]%string.

Definition user_read : list string :=
  ["error"; "access_token"; "token_type"; "scope"; "expires_in"]%string.

(** A payload whose lifetime is a string. *)
Definition body_string_lifetime : gmap string json :=
  {[ "access_token" := JStr "AT4"; "token_type" := JStr "Bearer";
     "expires_in" := JStr "3600"; "scope" := JStr "user-read" ]}.

(** A response body without [token_type]. *)
Definition body_no_token_type : gmap string json :=
  {[ "access_token" := JStr "AT5"; "expires_in" := JInt 60 ]}.

(** A session that answers the token endpoint with [body_AT2] and any other
    request with an error. *)
Definition session_only_token_url : ClientSession :=
  λ url _, if bool_decide (url = TOKEN_URL)
           then resp_ok body_AT2 else resp_bad body_invalid_grant.

(** A full set of token fields beside an error. *)
Definition body_slow_down : gmap string json :=
  <["error" := JStr "slow_down"]> body_AT2.

(** The doubles 3600.1 and 0.1, and a record authorized at 0.1. *)
Definition time_3600_1 : Qc := double 7916703622312755 (-41).
Definition time_0_1 : Qc := double 3602879701896397 (-55).

Definition client_at_0_1 : ClientCredentials.t :=
  {| ClientCredentials._access_token := JStr "AT0";
     ClientCredentials._token_type := JStr "Bearer";
     ClientCredentials._expires_in := JInt 3600;
     ClientCredentials._client_id := "id";
     ClientCredentials._client_secret := "secret";
     ClientCredentials._last_authorized_time := time_0_1 |}.

(** * Reasoning about coroutines *)

Section preserves.
Context {S : Type} (P : S → Prop).

Lemma preserves_mret {A} (a : A) : preserves P (mret a).
Proof. intros s Hs. split; [constructor | exact Hs]. Qed.

Lemma preserves_raise {A} (e : exn) : preserves P (@raise S A e).
Proof. intros s Hs. split; [constructor | exact Hs]. Qed.

Lemma preserves_lift {A} (r : result A) : preserves P (@lift S A r).
Proof. intros s Hs. split; [constructor | exact Hs]. Qed.

Lemma preserves_getattr {A} (f : S → A) : preserves P (getattr f).
Proof. intros s Hs. split; [constructor | exact Hs]. Qed.

Lemma preserves_setattr (upd : S → S) :
  (∀ s, P s → P (upd s)) → preserves P (setattr upd).
Proof. intros Hupd s Hs. split; [constructor | apply Hupd, Hs]. Qed.

Lemma preserves_await {A} (a : A) : preserves P (@await S A a).
Proof. intros s Hs. split; [repeat constructor; exact Hs | exact Hs]. Qed.

Lemma preserves_post session url data : preserves P (@post S session url data).
Proof. apply preserves_await. Qed.

Lemma preserves_bind {A B} (m : coro S A) (f : A → coro S B) :
  preserves P m → (∀ a, preserves P (f a)) → preserves P (m ≫= f).
Proof.
  intros Hm Hf s Hs. destruct (Hm s Hs) as [Hseen Hfin].
  unfold mbind, coro_bind. destruct (m s) as [tr [a|e] s1]; simpl in *.
  - destruct (Hf a _ Hfin) as [Hseen' Hfin'].
    destruct (f a s1) as [tr' o s2]; simpl in *.
    split; [apply Forall_app; split; assumption | assumption].
  - split; assumption.
Qed.

Lemma preserves_async_with {A B} (cm : coro S A) (body : A → coro S B) :
  preserves P cm → (∀ x, preserves P (body x)) →
  preserves P (async_with cm body).
Proof.
  intros Hcm Hbody s Hs. destruct (Hcm s Hs) as [Hseen Hfin].
  unfold async_with. destruct (cm s) as [tr [x|e] s1]; simpl in *.
  - destruct (Hbody x _ Hfin) as [Hseen' Hfin'].
    destruct (body x s1) as [tr' o s2]; simpl in *.
    split; [|assumption].
    rewrite !Forall_app. repeat split; try assumption.
    repeat constructor; assumption.
  - split; assumption.
Qed.

Lemma preserves_if {A} (b : bool) (m1 m2 : coro S A) :
  preserves P m1 → preserves P m2 → preserves P (if b then m1 else m2).
Proof. destruct b; auto. Qed.

Lemma preserves_observable {A} (m : coro S A) s :
  preserves P m → P s → Forall P (observable (m s)).
Proof.
  intros Hm Hs. destruct (Hm s Hs). unfold observable.
  apply Forall_app; split; [assumption | repeat constructor; assumption].
Qed.
End preserves.

Ltac preserves_step :=
  first
    [ apply preserves_bind; [|intros ?]
    | apply preserves_async_with; [|intros ?]
    | apply preserves_if
    | apply preserves_post
    | apply preserves_await
    | apply preserves_getattr
    | apply preserves_lift
    | apply preserves_raise
    | apply preserves_mret
    | apply preserves_setattr; intros ? ? ].

(** ** Rounding to binary64 *)

Lemma rne_spec (p d : Z) :
  0 < d →
  - d ≤ 2 * (rne p d * d - p) ≤ d ∧
  (2 * (rne p d * d - p) = d ∨ 2 * (rne p d * d - p) = - d → Z.even (rne p d) = true).
Proof.
  intros Hd. unfold rne.
  pose proof (Z.div_mod p d ltac:(lia)) as Hdm.
  pose proof (Z.mod_pos_bound p d Hd) as Hr.
  destruct (Z.compare_spec (2 * (p mod d)) d) as [Heq|Hlt|Hgt].
  - destruct (Z.even (p / d)) eqn:Hev.
    + split; [nia|]. intros _. exact Hev.
    + split; [nia|]. intros _. rewrite Z.even_add, Hev. reflexivity.
  - split; [nia|]. intros [H|H]; exfalso; nia.
  - split; [nia|]. intros [H|H]; exfalso; nia.
Qed.

Lemma rne_exact (n d : Z) : 0 < d → rne (n * d) d = n.
Proof.
  intros Hd. unfold rne.
  rewrite Z.mod_mul, Z.div_mul by lia.
  destruct d; try lia. reflexivity.
Qed.

Lemma rne_mono (p1 d1 p2 d2 : Z) :
  0 < d1 → 0 < d2 → p1 * d2 ≤ p2 * d1 → rne p1 d1 ≤ rne p2 d2.
Proof.
  intros Hd1 Hd2 Hle.
  destruct (rne_spec p1 d1 Hd1) as [[_ Hup] Hev1].
  destruct (rne_spec p2 d2 Hd2) as [[Hlo _] Hev2].
  set (M1 := rne p1 d1) in *. set (M2 := rne p2 d2) in *.
  destruct (Z_le_gt_dec M1 M2) as [|Hgt]; [assumption|exfalso].
  assert (H1 : (2 * M1 - 1) * (d1 * d2) ≤ 2 * p1 * d2) by nia.
  assert (H2 : 2 * p2 * d1 ≤ (2 * M2 + 1) * (d1 * d2)) by nia.
  assert (Hdd : 0 < d1 * d2) by nia.
  assert (HM : M1 = M2 + 1) by nia.
  assert (E1 : 2 * (M1 * d1 - p1) = d1) by nia.
  assert (E2 : 2 * (M2 * d2 - p2) = - d2) by nia.
  specialize (Hev1 (or_introl E1)). specialize (Hev2 (or_intror E2)).
  rewrite HM, Z.even_add, Hev2 in Hev1. discriminate.
Qed.

Lemma scale_pos : 0 < scale.
Proof. reflexivity. Qed.

Lemma floor_lt_pow2 (A b : Z) :
  0 ≤ A → 0 < b → A < b * 2 ^ (Z.log2 (A / b) + 1).
Proof.
  intros HA Hb.
  assert (H0 : 0 ≤ A / b) by (apply Z.div_pos; lia).
  assert (Hlt : A / b < 2 ^ (Z.log2 (A / b) + 1)).
  { destruct (Z.eq_dec (A / b) 0) as [->|Hne]; [reflexivity|].
    replace (Z.log2 (A / b) + 1) with (Z.succ (Z.log2 (A / b))) by lia.
    apply Z.log2_spec. lia. }
  pose proof (Z.div_mod A b ltac:(lia)) as Hdm.
  pose proof (Z.mod_pos_bound A b Hb) as Hr.
  nia.
Qed.

Lemma pow2_le_floor (A b : Z) :
  0 < b → 0 < Z.log2 (A / b) → b * 2 ^ Z.log2 (A / b) ≤ A.
Proof.
  intros Hb Hk.
  assert (H0 : 0 < A / b).
  { destruct (Z_lt_le_dec 0 (A / b)); [assumption|].
    rewrite Z.log2_nonpos in Hk by assumption. lia. }
  pose proof (proj1 (Z.log2_spec _ H0)) as Hlo.
  pose proof (Z.div_mod A b ltac:(lia)) as Hdm.
  pose proof (Z.mod_pos_bound A b Hb) as Hr.
  nia.
Qed.

Lemma floor_div_mono (A b C d : Z) :
  0 < b → 0 < d → A * d ≤ C * b → A / b ≤ C / d.
Proof.
  intros Hb Hd Hle. apply Z.div_le_lower_bound; [assumption|].
  pose proof (Z.div_mod A b ltac:(lia)) as Hdm.
  pose proof (Z.mod_pos_bound A b Hb) as Hr.
  nia.
Qed.

Lemma round_pos_mono (a b c d : Z) :
  0 < a → 0 < b → 0 < c → 0 < d →
  a * d ≤ c * b → round_pos a b ≤ round_pos c d.
Proof.
  intros Ha Hb Hc Hd Hle. unfold round_pos.
  pose proof scale_pos as Hs.
  set (A := a * scale). set (C := c * scale).
  assert (HA : 0 ≤ A) by (unfold A; nia).
  assert (HAC : A * d ≤ C * b) by (unfold A, C; nia).
  pose proof (floor_lt_pow2 A b HA Hb) as Hupper.
  pose proof (pow2_le_floor C d Hd) as Hlower.
  pose proof (Z.log2_le_mono _ _ (floor_div_mono A b C d Hb Hd HAC)) as Hk.
  pose proof (Z.log2_nonneg (A / b)) as Hkx.
  set (kx := Z.log2 (A / b)) in *. set (ky := Z.log2 (C / d)) in *.
  destruct (Z.eq_dec (Z.max (kx - 52) 0) (Z.max (ky - 52) 0)) as [Heq|Hne].
  - rewrite Heq. set (e := Z.max (ky - 52) 0).
    assert (He : 0 < 2 ^ e) by (apply Z.pow_pos_nonneg; lia).
    apply Z.mul_le_mono_nonneg_r; [lia|].
    apply rne_mono; nia.
  - set (ex := Z.max (kx - 52) 0) in *.
    assert (Hey : Z.max (ky - 52) 0 = ky - 52) by lia. rewrite Hey.
    assert (Hex : 0 ≤ ex ≤ ky) by lia.
    assert (Hpx : 0 < 2 ^ ex) by (apply Z.pow_pos_nonneg; lia).
    assert (Hpy : 0 < 2 ^ (ky - 52)) by (apply Z.pow_pos_nonneg; lia).
    assert (Hsplit1 : 2 ^ ky = 2 ^ (ky - ex) * 2 ^ ex)
      by (rewrite <- Z.pow_add_r by lia; f_equal; lia).
    assert (Hsplit2 : 2 ^ ky = 2 ^ 52 * 2 ^ (ky - 52))
      by (rewrite <- Z.pow_add_r by lia; f_equal; lia).
    assert (Hmono : 2 ^ (kx + 1) ≤ 2 ^ ky) by (apply Z.pow_le_mono_r; lia).
    trans (2 ^ ky).
    + rewrite Hsplit1. apply Z.mul_le_mono_nonneg_r; [lia|].
      trans (rne (2 ^ (ky - ex) * 1) 1); [|rewrite rne_exact; lia].
      apply rne_mono; nia.
    + rewrite Hsplit2 at 1. apply Z.mul_le_mono_nonneg_r; [lia|].
      specialize (Hlower ltac:(lia)).
      trans (rne (2 ^ 52 * 1) 1); [rewrite rne_exact; lia|].
      apply rne_mono; nia.
Qed.

Lemma round_pos_nonneg (a b : Z) : 0 < a → 0 < b → 0 ≤ round_pos a b.
Proof.
  intros Ha Hb. unfold round_pos. pose proof scale_pos.
  set (e := Z.max _ 0).
  assert (0 < 2 ^ e) by (apply Z.pow_pos_nonneg; lia).
  apply Z.mul_nonneg_nonneg; [|lia].
  trans (rne (0 * 1) 1); [rewrite rne_exact; lia|].
  apply rne_mono; nia.
Qed.

Lemma of_scaled_mono (N1 N2 : Z) : N1 ≤ N2 → (of_scaled N1 ≤ of_scaled N2)%Qc.
Proof.
  intros HN. unfold of_scaled, Qcle. simpl. rewrite !Qred_correct.
  unfold Qle. simpl. nia.
Qed.

Lemma of_scaled_0 : of_scaled 0 = 0%Qc.
Proof.
  apply Qc_is_canon. unfold of_scaled. simpl. rewrite Qred_correct.
  reflexivity.
Qed.

Lemma of_scaled_nonneg (N : Z) : 0 ≤ N → (0 ≤ of_scaled N)%Qc.
Proof. intros HN. rewrite <- of_scaled_0. by apply of_scaled_mono. Qed.

Lemma of_scaled_nonpos (N : Z) : N ≤ 0 → (of_scaled N ≤ 0)%Qc.
Proof. intros HN. rewrite <- of_scaled_0. by apply of_scaled_mono. Qed.

Lemma round_signed_pos_ge (a b : Z) (q : Qc) :
  0 < a → 0 < b → (q ≤ 0)%Qc → efloat_ge (round_signed false a b) q.
Proof.
  intros Ha Hb Hq. unfold round_signed.
  destruct (limit <=? round_pos a b); cbn [efloat_ge]; [reflexivity|].
  apply Qcle_trans with 0%Qc; [exact Hq|].
  apply of_scaled_nonneg. by apply round_pos_nonneg.
Qed.

Lemma round_signed_neg_ge (a b : Z) (q : Qc) :
  0 < a → 0 < b → efloat_ge (round_signed true a b) q → (q ≤ 0)%Qc.
Proof.
  intros Ha Hb. unfold round_signed.
  destruct (limit <=? round_pos a b); cbn [efloat_ge]; [discriminate|].
  intros Hq. apply Qcle_trans with (1 := Hq).
  apply of_scaled_nonpos. pose proof (round_pos_nonneg a b Ha Hb). lia.
Qed.

Lemma round_signed_pos_mono (a b c d : Z) (q : Qc) :
  0 < a → 0 < b → 0 < c → 0 < d → a * d ≤ c * b →
  efloat_ge (round_signed false a b) q → efloat_ge (round_signed false c d) q.
Proof.
  intros Ha Hb Hc Hd Hle. unfold round_signed.
  pose proof (round_pos_mono a b c d Ha Hb Hc Hd Hle) as Hmono.
  destruct (Z.leb_spec limit (round_pos a b)), (Z.leb_spec limit (round_pos c d));
    cbn [efloat_ge]; try reflexivity; try lia.
  intros Hq. apply Qcle_trans with (1 := Hq). by apply of_scaled_mono.
Qed.

Lemma round_signed_neg_mono (a b c d : Z) (q : Qc) :
  0 < a → 0 < b → 0 < c → 0 < d → c * b ≤ a * d →
  efloat_ge (round_signed true a b) q → efloat_ge (round_signed true c d) q.
Proof.
  intros Ha Hb Hc Hd Hle. unfold round_signed.
  pose proof (round_pos_mono c d a b Hc Hd Ha Hb Hle) as Hmono.
  destruct (Z.leb_spec limit (round_pos a b)), (Z.leb_spec limit (round_pos c d));
    cbn [efloat_ge]; try discriminate; try lia.
  intros Hq. apply Qcle_trans with (1 := Hq). apply of_scaled_mono. lia.
Qed.

(** Rounding is monotone: it preserves every lower bound. *)
Lemma round64_ge_mono (x y q : Qc) :
  (x ≤ y)%Qc → efloat_ge (round64 x) q → efloat_ge (round64 y) q.
Proof.
  unfold round64, Qcle, Qle.
  destruct x as [[nx dx] Hx], y as [[ny dy] Hy]. cbn [this Qnum Qden].
  intros Hxy.
  destruct nx as [|a|a], ny as [|c|c]; try lia.
  - auto.
  - intros Hq. apply round_signed_pos_ge; [lia|lia|exact Hq].
  - apply round_signed_pos_mono; lia.
  - intros Hq. apply round_signed_neg_ge in Hq; [exact Hq|lia|lia].
  - intros Hq. apply round_signed_neg_ge in Hq; [|lia|lia].
    apply round_signed_pos_ge; [lia|lia|exact Hq].
  - apply round_signed_neg_mono; lia.
Qed.

(** ** Arithmetic of the expiry test *)

Lemma elapsed_zero (t : Qc) : (t - t = 0)%Qc.
Proof. unfold Qcminus. apply Qcplus_opp_r. Qed.

Lemma float_sub_diag (t : Qc) : float_sub t t = Finite 0%Qc.
Proof. unfold float_sub. by rewrite elapsed_zero. Qed.

Lemma float_sub_mono (t1 t2 last q : Qc) :
  (t1 ≤ t2)%Qc →
  efloat_ge (float_sub t1 last) q → efloat_ge (float_sub t2 last) q.
Proof.
  intros H. apply round64_ge_mono. unfold Qcminus. by apply Qcplus_le_mono_r.
Qed.

Lemma float_sub_nonneg (t0 now q : Qc) :
  (t0 ≤ now)%Qc → (q ≤ 0)%Qc → efloat_ge (float_sub now t0) q.
Proof.
  intros Ht Hq. apply (float_sub_mono t0 now t0 q Ht).
  by rewrite float_sub_diag.
Qed.

Lemma float_ge_zero_pos (n : Z) :
  0 < n → float_ge (Finite 0%Qc) (JInt n) = Ok false.
Proof.
  intros Hn. simpl. rewrite bool_decide_eq_false_2; [reflexivity|].
  simpl. rewrite <- Z2Qc_inj_0. rewrite <- Z2Qc_inj_le. lia.
Qed.

Lemma float_ge_nonneg_nonpos (x : efloat) (n : Z) :
  n ≤ 0 → (∀ q, (q ≤ 0)%Qc → efloat_ge x q) → float_ge x (JInt n) = Ok true.
Proof.
  intros Hn Hx. simpl. rewrite bool_decide_eq_true_2; [reflexivity|].
  apply Hx. rewrite <- Z2Qc_inj_0. rewrite <- Z2Qc_inj_le. lia.
Qed.

(** * ClientCredentials: the runs of each operation *)

Ltac run_coro :=
  unfold mbind, coro_bind, mret, coro_ret, async_with, post, await, raise,
    lift, getattr, setattr; simpl.

Section client_runs.
Import ClientCredentials.

Lemma client_is_expired_run (now : Qc) (self : t) :
  is_expired now self
  = Run [] (float_ge (float_sub now (_last_authorized_time self))
              (_expires_in self)) self.
Proof. reflexivity. Qed.

Lemma client_init_Ok data cid cs now c :
  __init__ data cid cs now = Ok c →
  data !! "access_token" = Some (_access_token c) ∧
  data !! "token_type" = Some (_token_type c) ∧
  data !! "expires_in" = Some (_expires_in c) ∧
  _client_id c = cid ∧ _client_secret c = cs ∧
  _last_authorized_time c = now.
Proof.
  unfold __init__, dict_getitem, mbind, result_bind, mret, result_ret.
  destruct (data !! "access_token"); [|discriminate].
  destruct (data !! "token_type"); [|discriminate].
  destruct (data !! "expires_in"); [|discriminate].
  intros [= <-]. simpl. repeat split; reflexivity.
Qed.

Lemma client_refresh_cases session now self :
  client_refresh_case session now self (refresh session now self).
Proof.
  unfold refresh. run_coro.
  change (session TOKEN_URL _) with (client_request session self).
  set (response := client_request session self).
  destruct (truthy (dict_get (json_body response) "error")) eqn:Herr; simpl.
  { by apply client_refresh_rejected. }
  unfold dict_getitem.
  destruct (json_body response !! "access_token") as [a|] eqn:Ha; simpl;
    [|by eapply client_refresh_incomplete].
  destruct (json_body response !! "token_type") as [ty|] eqn:Hty; simpl;
    [|by eapply client_refresh_incomplete].
  destruct (json_body response !! "expires_in") as [ex|] eqn:Hex; simpl;
    [|by eapply client_refresh_incomplete].
  by eapply client_refresh_done.
Qed.

Lemma client_factory_run cid cs session now :
  let response := session TOKEN_URL (grant cid cs) in
  outcome (from_client_secret cid cs session now ())
  = if signals_error (json_body response)
    then Raise (AuthenticationError response (json_body response))
    else __init__ (json_body response) cid cs now.
Proof.
  unfold from_client_secret. run_coro. unfold signals_error.
  destruct (truthy _); reflexivity.
Qed.
End client_runs.

(** * UserCredentials: the runs of each operation *)

Section user_runs.
Import UserCredentials.

Lemma user_is_expired_run (now : Qc) (self : t) :
  is_expired now self
  = Run [] (float_ge (float_sub now (_last_authorized_time self))
              (_expires_in self)) self.
Proof. reflexivity. Qed.

Lemma user_init_Ok data cid cs now u :
  __init__ data cid cs now = Ok u →
  data !! "access_token" = Some (_access_token u) ∧
  data !! "token_type" = Some (_token_type u) ∧
  data !! "expires_in" = Some (_expires_in u) ∧
  data !! "scope" = Some (_scope u) ∧
  _refresh_token u = dict_get data "refresh_token" ∧
  _client_id u = cid ∧ _client_secret u = cs ∧
  _last_authorized_time u = now.
Proof.
  unfold __init__, dict_getitem, mbind, result_bind, mret, result_ret.
  destruct (data !! "access_token"); [|discriminate].
  destruct (data !! "token_type"); [|discriminate].
  destruct (data !! "expires_in"); [|discriminate].
  destruct (data !! "scope"); [|discriminate].
  intros [= <-]. simpl. repeat split; reflexivity.
Qed.

Lemma user_refresh_cases session now self :
  user_refresh_case session now self (refresh session now self).
Proof.
  unfold refresh. run_coro.
  change (session TOKEN_URL _) with (user_request session self).
  set (response := user_request session self).
  destruct (truthy (dict_get (json_body response) "error")) eqn:Herr; simpl.
  { by apply user_refresh_rejected. }
  unfold dict_getitem.
  destruct (json_body response !! "access_token") as [a|] eqn:Ha; simpl;
    [|by eapply user_refresh_incomplete].
  destruct (json_body response !! "token_type") as [ty|] eqn:Hty; simpl;
    [|by eapply user_refresh_incomplete].
  destruct (json_body response !! "scope") as [sc|] eqn:Hsc; simpl;
    [|by eapply user_refresh_incomplete].
  destruct (json_body response !! "expires_in") as [ex|] eqn:Hex; simpl;
    [|by eapply user_refresh_incomplete].
  by eapply user_refresh_done.
Qed.

Lemma user_factory_run cid cs session rt now :
  let response := session TOKEN_URL (grant (JStr rt) cid cs) in
  outcome (from_refresh_token cid cs session rt now ())
  = if signals_error (json_body response)
    then Raise (AuthenticationError response (json_body response))
    else __init__ (<["refresh_token" := JStr rt]> (json_body response)) cid cs now.
Proof.
  unfold from_refresh_token. run_coro. unfold signals_error.
  destruct (truthy _); reflexivity.
Qed.
End user_runs.


(** * The expiry test *)



(** The doubles 3600.1 and 0.1 are less than 3600 apart, but their float
    difference is 3600.0: the record is expired. *)
Example is_expired_rounds_the_difference :
  (time_3600_1 - time_0_1 < Qc_of_Z 3600)%Qc
  ∧ float_sub time_3600_1 time_0_1 = Finite (Qc_of_Z 3600)
  ∧ ClientCredentials.is_expired time_3600_1 client_at_0_1
    = Run [] (Ok true) client_at_0_1.
Proof.
  split; [vm_compute; reflexivity|]. split; [|vm_compute; reflexivity].
  vm_compute. apply (f_equal Finite), Qc_is_canon. reflexivity.
Qed.

(** [float_sub] against the subtraction [SFsub] of the Standard Library's
    binary64 specification: on the doubles above, on a tie (2^53 + 2 - 1
    rounds to the even 2^53), on subnormal numbers, and on an overflow. *)
Example float_sub_agrees_with_SFsub :
  Forall (λ xy : (Z * Z) * (Z * Z),
            let '((mx, ex), (my, ey)) := xy in
            spec_float_value
              (SFsub 53 1024 (binary_normalize 53 1024 mx ex false)
                             (binary_normalize 53 1024 my ey false))
            = Some (float_sub (double mx ex) (double my ey)))
    [ ((7916703622312755, -41), (3602879701896397, -55));
      ((3602879701896397, -55), (7916703622312755, -41));
      ((4503599627370497, 1), (1, 0));
      ((4503599627370497, 1), (-1, 0));
      ((3, -1074), (1, -1073));
      ((4503599627370497, -1074), (6755399441055744, -1074));
      ((9007199254740991, 971), (-9007199254740991, 971));
      ((-9007199254740991, 971), (9007199254740991, 918));
      ((7304872349818163, -22), (7304872349818162, -22)) ].
Proof.
  repeat (apply Forall_cons_2 || apply Forall_nil_2); vm_compute;
    first [ reflexivity
          | apply (f_equal (λ q, Some (Finite q))), Qc_is_canon; reflexivity ].
Qed.

Example client0_expires_on_the_second :
  outcome (ClientCredentials.is_expired (Qc_of_Z 4599) client0) = Ok false ∧
  outcome (ClientCredentials.is_expired (Qc_of_Z 4600) client0) = Ok true.
Proof. split; vm_compute; reflexivity. Qed.

Example is_expired_on_a_string_lifetime :
  outcome (ClientCredentials.is_expired (Qc_of_Z 4600)
             (ClientCredentials.set_expires_in (JStr "3600") client0))
  = Raise TypeError.
Proof. reflexivity. Qed.


Lemma client_fresh_not_expired (c : ClientCredentials.t) (now : Qc) (n : Z) :
  0 < n →
  ClientCredentials._expires_in c = JInt n →
  ClientCredentials._last_authorized_time c = now →
  ClientCredentials.is_expired now c = Run [] (Ok false) c.
Proof.
  intros Hn Hex Hlast.
  rewrite client_is_expired_run, Hex, Hlast, float_sub_diag.
  by rewrite float_ge_zero_pos.
Qed.

Lemma user_fresh_not_expired (u : UserCredentials.t) (now : Qc) (n : Z) :
  0 < n →
  UserCredentials._expires_in u = JInt n →
  UserCredentials._last_authorized_time u = now →
  UserCredentials.is_expired now u = Run [] (Ok false) u.
Proof.
  intros Hn Hex Hlast.
  rewrite user_is_expired_run, Hex, Hlast, float_sub_diag.
  by rewrite float_ge_zero_pos.
Qed.

(** Case analysis on the run of a refresh, in the goal and the context. *)
Ltac client_refresh_inv session now self :=
  let Hc := fresh "Hcase" in
  let r := fresh "r" in
  pose proof (client_refresh_cases session now self) as Hc;
  set (r := ClientCredentials.refresh session now self) in *;
  clearbody r; destruct Hc;
  repeat match goal with x := _ |- _ => subst x end;
  unfold client_refreshed, user_refreshed in *; simpl in *.

Ltac user_refresh_inv session now self :=
  let Hc := fresh "Hcase" in
  let r := fresh "r" in
  pose proof (user_refresh_cases session now self) as Hc;
  set (r := UserCredentials.refresh session now self) in *;
  clearbody r; destruct Hc;
  repeat match goal with x := _ |- _ => subst x end;
  unfold client_refreshed, user_refreshed in *; simpl in *.

(** C6. A record whose lifetime is a positive integer is not expired at
    the very time recorded in [last_authorized_time]: right after the
    constructor, after a factory, and after a successful refresh, for both
    classes. *)
Theorem fresh_record_is_not_expired (now : Qc) (n : Z) :
  0 < n →
  (∀ data cid cs c,
     data !! "expires_in" = Some (JInt n) →
     ClientCredentials.__init__ data cid cs now = Ok c →
     ClientCredentials.is_expired now c = Run [] (Ok false) c)
  ∧
  (∀ cid cs session c,
     json_body (session TOKEN_URL (ClientCredentials.grant cid cs)) !! "expires_in"
       = Some (JInt n) →
     outcome (ClientCredentials.from_client_secret cid cs session now ()) = Ok c →
     ClientCredentials.is_expired now c = Run [] (Ok false) c)
  ∧
  (∀ session self,
     json_body (client_request session self) !! "expires_in" = Some (JInt n) →
     outcome (ClientCredentials.refresh session now self) = Ok () →
     ClientCredentials.is_expired now
       (final (ClientCredentials.refresh session now self))
     = Run [] (Ok false) (final (ClientCredentials.refresh session now self)))
  ∧
  (∀ data cid cs u,
     data !! "expires_in" = Some (JInt n) →
     UserCredentials.__init__ data cid cs now = Ok u →
     UserCredentials.is_expired now u = Run [] (Ok false) u)
  ∧
  (∀ cid cs session rt u,
     json_body (session TOKEN_URL (UserCredentials.grant (JStr rt) cid cs))
       !! "expires_in" = Some (JInt n) →
     outcome (UserCredentials.from_refresh_token cid cs session rt now ()) = Ok u →
     UserCredentials.is_expired now u = Run [] (Ok false) u)
  ∧
  (∀ session self,
     json_body (user_request session self) !! "expires_in" = Some (JInt n) →
     outcome (UserCredentials.refresh session now self) = Ok () →
     UserCredentials.is_expired now
       (final (UserCredentials.refresh session now self))
     = Run [] (Ok false) (final (UserCredentials.refresh session now self))).
Proof.
  intros Hn. repeat apply conj.
  - intros data cid cs c Hex Hinit.
    apply client_init_Ok in Hinit as (_ & _ & Hex' & _ & _ & Hlast).
    apply (client_fresh_not_expired c now n); [done| |done]. congruence.
  - intros cid cs session c Hex Hrun.
    rewrite client_factory_run in Hrun.
    destruct (signals_error _); [discriminate|].
    apply client_init_Ok in Hrun as (_ & _ & Hex' & _ & _ & Hlast).
    apply (client_fresh_not_expired c now n); [done| |done]. congruence.
  - intros session self Hex Hok.
    client_refresh_inv session now self; try discriminate.
    apply (client_fresh_not_expired _ now n); [done| |done].
    simpl. congruence.
  - intros data cid cs u Hex Hinit.
    apply user_init_Ok in Hinit as (_ & _ & Hex' & _ & _ & _ & _ & Hlast).
    apply (user_fresh_not_expired u now n); [done| |done]. congruence.
  - intros cid cs session rt u Hex Hrun.
    rewrite user_factory_run in Hrun.
    destruct (signals_error _); [discriminate|].
    apply user_init_Ok in Hrun as (_ & _ & Hex' & _ & _ & _ & _ & Hlast).
    rewrite lookup_insert_ne in Hex' by done.
    apply (user_fresh_not_expired u now n); [done| |done]. congruence.
  - intros session self Hex Hok.
    user_refresh_inv session now self; try discriminate.
    apply (user_fresh_not_expired _ now n); [done| |done].
    simpl. congruence.
Qed.

Lemma fresh_record_is_not_expired_witness :
  ClientCredentials.is_expired (Qc_of_Z 2000) client1 = Run [] (Ok false) client1
  ∧ ClientCredentials.is_expired (Qc_of_Z 2000)
      (final (ClientCredentials.refresh (const_session (resp_ok body_AT1))
                (Qc_of_Z 2000) client0))
    = Run [] (Ok false)
        (final (ClientCredentials.refresh (const_session (resp_ok body_AT1))
                  (Qc_of_Z 2000) client0))
  ∧ UserCredentials.is_expired (Qc_of_Z 2000) user2 = Run [] (Ok false) user2
  ∧ UserCredentials.is_expired (Qc_of_Z 2000)
      (final (UserCredentials.refresh (const_session (resp_ok body_AT2))
                (Qc_of_Z 2000) user0))
    = Run [] (Ok false)
        (final (UserCredentials.refresh (const_session (resp_ok body_AT2))
                  (Qc_of_Z 2000) user0)).
Proof.
  assert (H : 0 < 3600) by lia.
  destruct (fresh_record_is_not_expired (Qc_of_Z 2000) 3600 H)
    as (Hinit & _ & Hrefresh & Huinit & _ & Hurefresh).
  repeat apply conj.
  - apply (Hinit body_AT1 "id"%string "secret"%string); reflexivity.
  - apply Hrefresh; reflexivity.
  - apply (Huinit body_AT2 "id"%string "secret"%string); reflexivity.
  - apply Hurefresh; reflexivity.
Defined.

Lemma client_overdue_expired (c : ClientCredentials.t) (now : Qc) (n : Z) :
  n ≤ 0 →
  ClientCredentials._expires_in c = JInt n →
  (ClientCredentials._last_authorized_time c ≤ now)%Qc →
  ClientCredentials.is_expired now c = Run [] (Ok true) c.
Proof.
  intros Hn Hex Hlast. rewrite client_is_expired_run, Hex.
  rewrite float_ge_nonneg_nonpos; [done|done|].
  intros q Hq. by apply float_sub_nonneg.
Qed.

Lemma user_overdue_expired (u : UserCredentials.t) (now : Qc) (n : Z) :
  n ≤ 0 →
  UserCredentials._expires_in u = JInt n →
  (UserCredentials._last_authorized_time u ≤ now)%Qc →
  UserCredentials.is_expired now u = Run [] (Ok true) u.
Proof.
  intros Hn Hex Hlast. rewrite user_is_expired_run, Hex.
  rewrite float_ge_nonneg_nonpos; [done|done|].
  intros q Hq. by apply float_sub_nonneg.
Qed.

(** C9. A record built at time [t0] from a payload whose [expires_in] is an
    integer [n <= 0] is expired at every time [now >= t0], the instant of
    construction included. *)
Theorem nonpositive_lifetime_expired_from_the_start (t0 now : Qc) (n : Z) :
  n ≤ 0 →
  (t0 ≤ now)%Qc →
  (∀ data cid cs c,
     data !! "expires_in" = Some (JInt n) →
     ClientCredentials.__init__ data cid cs t0 = Ok c →
     ClientCredentials.is_expired now c = Run [] (Ok true) c)
  ∧
  (∀ data cid cs u,
     data !! "expires_in" = Some (JInt n) →
     UserCredentials.__init__ data cid cs t0 = Ok u →
     UserCredentials.is_expired now u = Run [] (Ok true) u).
Proof.
  intros Hn Ht. split.
  - intros data cid cs c Hex Hinit.
    apply client_init_Ok in Hinit as (_ & _ & Hex' & _ & _ & Hlast).
    apply (client_overdue_expired c now n); [done| |by rewrite Hlast].
    congruence.
  - intros data cid cs u Hex Hinit.
    apply user_init_Ok in Hinit as (_ & _ & Hex' & _ & _ & _ & _ & Hlast).
    apply (user_overdue_expired u now n); [done| |by rewrite Hlast].
    congruence.
Qed.

Lemma nonpositive_lifetime_expired_from_the_start_witness :
  ClientCredentials.is_expired (Qc_of_Z 7) client_zero = Run [] (Ok true) client_zero
  ∧ UserCredentials.is_expired (Qc_of_Z 9) user_zero = Run [] (Ok true) user_zero.
Proof.
  assert (Hn : 0 ≤ 0) by lia.
  assert (H7 : (Qc_of_Z 7 ≤ Qc_of_Z 7)%Qc) by (apply (proj1 (Z2Qc_inj_le 7 7)); lia).
  assert (H9 : (Qc_of_Z 7 ≤ Qc_of_Z 9)%Qc) by (apply (proj1 (Z2Qc_inj_le 7 9)); lia).
  split.
  - apply (proj1 (nonpositive_lifetime_expired_from_the_start _ _ 0 Hn H7)
             body_zero_lifetime "id"%string "secret"%string); reflexivity.
  - apply (proj2 (nonpositive_lifetime_expired_from_the_start _ _ 0 Hn H9)
             body_zero_lifetime "id"%string "secret"%string); reflexivity.
Defined.

(** * Failure of the grant exchange *)

Lemma invalid_grant_signals_error : signals_error body_invalid_grant = true.
Proof. reflexivity. Qed.

(** C2. When the token endpoint answers with the body
    [{"error": "invalid_grant"}], [refresh] of either class raises
    [AuthenticationError] and [self] is the same record at every suspension
    point and on exit, so none of its fields has changed; the two factories
    raise [AuthenticationError] as well. *)
Theorem invalid_grant_fails_and_changes_nothing
    (session : ClientSession) (now : Qc) :
  (∀ self : ClientCredentials.t,
     let response := client_request session self in
     json_body response = body_invalid_grant →
     ClientCredentials.refresh session now self
     = Run [self; self; self]
           (Raise (AuthenticationError response (json_body response))) self)
  ∧
  (∀ self : UserCredentials.t,
     let response := user_request session self in
     json_body response = body_invalid_grant →
     UserCredentials.refresh session now self
     = Run [self; self; self]
           (Raise (AuthenticationError response (json_body response))) self)
  ∧
  (∀ cid cs,
     let response := session TOKEN_URL (ClientCredentials.grant cid cs) in
     json_body response = body_invalid_grant →
     outcome (ClientCredentials.from_client_secret cid cs session now ())
     = Raise (AuthenticationError response (json_body response)))
  ∧
  (∀ cid cs rt,
     let response := session TOKEN_URL (UserCredentials.grant (JStr rt) cid cs) in
     json_body response = body_invalid_grant →
     outcome (UserCredentials.from_refresh_token cid cs session rt now ())
     = Raise (AuthenticationError response (json_body response))).
Proof.
  repeat apply conj.
  - intros self response Hbody. subst response.
    client_refresh_inv session now self; [reflexivity| |];
      rewrite Hbody, invalid_grant_signals_error in *; discriminate.
  - intros self response Hbody. subst response.
    user_refresh_inv session now self; [reflexivity| |];
      rewrite Hbody, invalid_grant_signals_error in *; discriminate.
  - intros cid cs response Hbody. subst response.
    rewrite client_factory_run.
    rewrite Hbody at 1. by rewrite invalid_grant_signals_error.
  - intros cid cs rt response Hbody. subst response.
    rewrite user_factory_run.
    rewrite Hbody at 1. by rewrite invalid_grant_signals_error.
Qed.

Lemma invalid_grant_fails_and_changes_nothing_witness :
  ClientCredentials.refresh session_invalid_grant (Qc_of_Z 2000) client0
  = Run [client0; client0; client0]
        (Raise (AuthenticationError resp_invalid_grant body_invalid_grant)) client0
  ∧ UserCredentials.refresh session_invalid_grant (Qc_of_Z 2000) user0
    = Run [user0; user0; user0]
          (Raise (AuthenticationError resp_invalid_grant body_invalid_grant)) user0
  ∧ outcome (ClientCredentials.from_client_secret "id" "secret"
               session_invalid_grant (Qc_of_Z 2000) ())
    = Raise (AuthenticationError resp_invalid_grant body_invalid_grant)
  ∧ outcome (UserCredentials.from_refresh_token "id" "secret"
               session_invalid_grant "RT1" (Qc_of_Z 2000) ())
    = Raise (AuthenticationError resp_invalid_grant body_invalid_grant).
Proof.
  destruct (invalid_grant_fails_and_changes_nothing
              session_invalid_grant (Qc_of_Z 2000))
    as (Hc & Hu & Hfc & Hfu).
  repeat apply conj.
  - apply (Hc client0). reflexivity.
  - apply (Hu user0). reflexivity.
  - apply (Hfc "id"%string "secret"%string). reflexivity.
  - apply (Hfu "id"%string "secret"%string "RT1"%string). reflexivity.
Defined.

Lemma raises_AuthenticationError_intro {A} response data :
  raises_AuthenticationError (A:=A) (Raise (AuthenticationError response data)).
Proof. eexists; split; reflexivity. Qed.

Lemma KeyError_not_AuthenticationError {A} k :
  ¬ raises_AuthenticationError (A:=A) (Raise (KeyError k)).
Proof. intros (e & [= <-] & Hname). discriminate. Qed.

Lemma Ok_not_AuthenticationError {A} (a : A) :
  ¬ raises_AuthenticationError (Ok a).
Proof. intros (e & Heq & _). discriminate. Qed.

Lemma client_init_not_AuthenticationError data cid cs now :
  ¬ raises_AuthenticationError (ClientCredentials.__init__ data cid cs now).
Proof.
  unfold ClientCredentials.__init__, dict_getitem, mbind, result_bind.
  repeat (destruct (data !! _); [|apply KeyError_not_AuthenticationError]).
  apply Ok_not_AuthenticationError.
Qed.

Lemma user_init_not_AuthenticationError data cid cs now :
  ¬ raises_AuthenticationError (UserCredentials.__init__ data cid cs now).
Proof.
  unfold UserCredentials.__init__, dict_getitem, mbind, result_bind.
  repeat (destruct (data !! _); [|apply KeyError_not_AuthenticationError]).
  apply Ok_not_AuthenticationError.
Qed.

(** C3. For each of the four network operations, the outcome is an
    [AuthenticationError] exactly when [bool(data.get("error"))] holds for
    the decoded body [data]; the test reads the body only, never the status
    of the response, and when it fires the exception is the
    [AuthenticationError] built from the response and the body, no other. *)
Theorem authentication_error_iff_error_field
    (session : ClientSession) (now : Qc) :
  (∀ self : ClientCredentials.t,
     let response := client_request session self in
     let out := outcome (ClientCredentials.refresh session now self) in
     (raises_AuthenticationError out ↔ signals_error (json_body response) = true)
     ∧ (signals_error (json_body response) = true →
        out = Raise (AuthenticationError response (json_body response))))
  ∧
  (∀ self : UserCredentials.t,
     let response := user_request session self in
     let out := outcome (UserCredentials.refresh session now self) in
     (raises_AuthenticationError out ↔ signals_error (json_body response) = true)
     ∧ (signals_error (json_body response) = true →
        out = Raise (AuthenticationError response (json_body response))))
  ∧
  (∀ cid cs,
     let response := session TOKEN_URL (ClientCredentials.grant cid cs) in
     let out := outcome (ClientCredentials.from_client_secret cid cs session now ()) in
     (raises_AuthenticationError out ↔ signals_error (json_body response) = true)
     ∧ (signals_error (json_body response) = true →
        out = Raise (AuthenticationError response (json_body response))))
  ∧
  (∀ cid cs rt,
     let response := session TOKEN_URL (UserCredentials.grant (JStr rt) cid cs) in
     let out := outcome (UserCredentials.from_refresh_token cid cs session rt now ()) in
     (raises_AuthenticationError out ↔ signals_error (json_body response) = true)
     ∧ (signals_error (json_body response) = true →
        out = Raise (AuthenticationError response (json_body response)))).
Proof.
  repeat apply conj.
  - intros self response out. subst response out.
    client_refresh_inv session now self.
    + split; [split; [done|intros _; apply raises_AuthenticationError_intro]|done].
    + split; [split|]; intros Habs; try congruence.
      by apply KeyError_not_AuthenticationError in Habs.
    + split; [split|]; intros Habs; try congruence.
      by apply Ok_not_AuthenticationError in Habs.
  - intros self response out. subst response out.
    user_refresh_inv session now self.
    + split; [split; [done|intros _; apply raises_AuthenticationError_intro]|done].
    + split; [split|]; intros Habs; try congruence.
      by apply KeyError_not_AuthenticationError in Habs.
    + split; [split|]; intros Habs; try congruence.
      by apply Ok_not_AuthenticationError in Habs.
  - intros cid cs response out. subst response out.
    rewrite client_factory_run.
    destruct (signals_error _) eqn:Herr.
    + split; [split; [done|intros _; apply raises_AuthenticationError_intro]|done].
    + split; [split|]; intros Habs; try congruence.
      by apply client_init_not_AuthenticationError in Habs.
  - intros cid cs rt response out. subst response out.
    rewrite user_factory_run.
    destruct (signals_error _) eqn:Herr.
    + split; [split; [done|intros _; apply raises_AuthenticationError_intro]|done].
    + split; [split|]; intros Habs; try congruence.
      by apply user_init_not_AuthenticationError in Habs.
Qed.

(** The same at concrete responses: an error body with status 200 is
    refused, a body without [error] and a body with an empty [error] are
    accepted with status 400. *)
Lemma authentication_error_iff_error_field_witness :
  outcome (UserCredentials.refresh session_200_invalid_client (Qc_of_Z 2000) user0)
  = Raise (AuthenticationError (resp_ok body_invalid_client) body_invalid_client)
  ∧ outcome (ClientCredentials.from_client_secret "id" "secret"
               session_200_invalid_client (Qc_of_Z 2000) ())
    = Raise (AuthenticationError (resp_ok body_invalid_client) body_invalid_client)
  ∧ ¬ raises_AuthenticationError
        (outcome (UserCredentials.refresh session_400_AT2 (Qc_of_Z 2000) user0))
  ∧ ¬ raises_AuthenticationError
        (outcome (ClientCredentials.refresh
                    (const_session (resp_bad body_empty_error)) (Qc_of_Z 2000) client0)).
Proof.
  repeat apply conj.
  - apply (proj1 (proj2 (authentication_error_iff_error_field
                           session_200_invalid_client (Qc_of_Z 2000))) user0).
    reflexivity.
  - apply (proj1 (proj2 (proj2 (authentication_error_iff_error_field
                           session_200_invalid_client (Qc_of_Z 2000))))
             "id"%string "secret"%string).
    reflexivity.
  - intros Habs.
    apply (proj1 (proj2 (authentication_error_iff_error_field
                           session_400_AT2 (Qc_of_Z 2000))) user0) in Habs.
    discriminate Habs.
  - intros Habs.
    apply (proj1 (authentication_error_iff_error_field
                    (const_session (resp_bad body_empty_error)) (Qc_of_Z 2000))
             client0) in Habs.
    discriminate Habs.
Defined.


(** * The refresh token *)

(** C4. Whatever the token endpoint answers, a [UserCredentials] returned by
    [from_refresh_token(client_id, client_secret, session, rt)] stores
    [rt] as its refresh token. *)
Theorem from_refresh_token_stores_the_given_token
    (cid cs : string) (session : ClientSession) (rt : string) (now : Qc)
    (u : UserCredentials.t) :
  outcome (UserCredentials.from_refresh_token cid cs session rt now ()) = Ok u →
  UserCredentials._refresh_token u = JStr rt.
Proof.
  rewrite user_factory_run. destruct (signals_error _); [discriminate|].
  intros Hinit.
  apply user_init_Ok in Hinit as (_ & _ & _ & _ & Hrt & _).
  rewrite Hrt. unfold dict_get. by rewrite lookup_insert_eq.
Qed.

(** [body_AT2] has no [refresh_token]; [body_rotated] carries another one. *)
Lemma from_refresh_token_stores_the_given_token_witness :
  body_AT2 !! "refresh_token" = None
  ∧ outcome (UserCredentials.from_refresh_token "id" "secret"
               (const_session (resp_ok body_AT2)) "RT9" (Qc_of_Z 2000) ())
    = Ok user9
  ∧ UserCredentials._refresh_token user9 = JStr "RT9".
Proof.
  split; [reflexivity|]. split; [reflexivity|].
  apply (from_refresh_token_stores_the_given_token "id" "secret"
           (const_session (resp_ok body_AT2)) "RT9" (Qc_of_Z 2000) user9).
  reflexivity.
Defined.

Example from_refresh_token_overrides_the_echoed_token :
  outcome (UserCredentials.from_refresh_token "id" "secret"
             (const_session (resp_ok body_rotated)) "RT9" (Qc_of_Z 2000) ())
  = Ok user9.
Proof. reflexivity. Qed.

Lemma user_refresh_preserves_refresh_token session now (rt : json) :
  preserves (λ s, UserCredentials._refresh_token s = rt)
    (UserCredentials.refresh session now).
Proof.
  unfold UserCredentials.refresh. cbv zeta.
  repeat (preserves_step; try (simpl; assumption)).
Qed.

(** C5. A successful [UserCredentials.refresh] stores the body's
    [access_token], [token_type], [scope] and [expires_in] and the current
    time, and leaves [refresh_token] (with [client_id] and [client_secret])
    as it was; the refresh token is the old one at every suspension point
    too, whatever the body contains. *)
Theorem refresh_keeps_refresh_token
    (session : ClientSession) (now : Qc) (self : UserCredentials.t) :
  outcome (UserCredentials.refresh session now self) = Ok () →
  (∃ a ty sc ex,
     let body := json_body (user_request session self) in
     body !! "access_token" = Some a ∧ body !! "token_type" = Some ty ∧
     body !! "scope" = Some sc ∧ body !! "expires_in" = Some ex ∧
     final (UserCredentials.refresh session now self)
     = {| UserCredentials._access_token := a;
          UserCredentials._token_type := ty;
          UserCredentials._expires_in := ex;
          UserCredentials._scope := sc;
          UserCredentials._refresh_token := UserCredentials._refresh_token self;
          UserCredentials._client_id := UserCredentials._client_id self;
          UserCredentials._client_secret := UserCredentials._client_secret self;
          UserCredentials._last_authorized_time := now |})
  ∧ Forall (λ s, UserCredentials._refresh_token s
                 = UserCredentials._refresh_token self)
      (observable (UserCredentials.refresh session now self)).
Proof.
  intros Hok. split.
  - user_refresh_inv session now self; try discriminate.
    exists a, ty, sc, ex. by repeat split.
  - apply preserves_observable; [|reflexivity].
    apply user_refresh_preserves_refresh_token.
Qed.

Lemma refresh_keeps_refresh_token_witness :
  final (UserCredentials.refresh (const_session (resp_ok body_AT2))
           (Qc_of_Z 2000) user0) = user1
  ∧ UserCredentials._refresh_token user1 = JStr "RT1"
  ∧ UserCredentials._refresh_token
      (final (UserCredentials.refresh (const_session (resp_ok body_rotated))
                (Qc_of_Z 2000) user0)) = JStr "RT1".
Proof.
  split; [reflexivity|]. split; [reflexivity|].
  assert (Hok : outcome (UserCredentials.refresh
                           (const_session (resp_ok body_rotated))
                           (Qc_of_Z 2000) user0) = Ok ()) by reflexivity.
  destruct (refresh_keeps_refresh_token _ _ _ Hok) as [_ Hobs].
  unfold observable in Hobs. apply Forall_app in Hobs as [_ Hfin].
  by apply Forall_singleton in Hfin.
Defined.

(** * The expiry clock *)

(** C7. During a refresh, at every suspension point and on exit, the pair
    ([expires_in], [last_authorized_time]) of [self] is either the pair it
    had before the call, or -- and then the refresh succeeds -- the body's
    [expires_in] together with the current time: never one new and one old.
    A successful refresh ends with the new pair, and the constructor stores
    the current time next to the payload's [expires_in]. *)
Theorem expiry_clock_updated_together (session : ClientSession) (now : Qc) :
  (∀ self : ClientCredentials.t,
     let r := ClientCredentials.refresh session now self in
     let body := json_body (client_request session self) in
     Forall (λ s,
               (ClientCredentials._expires_in s = ClientCredentials._expires_in self ∧
                ClientCredentials._last_authorized_time s
                = ClientCredentials._last_authorized_time self)
               ∨
               (outcome r = Ok () ∧
                body !! "expires_in" = Some (ClientCredentials._expires_in s) ∧
                ClientCredentials._last_authorized_time s = now))
       (observable r)
     ∧ (outcome r = Ok () →
        body !! "expires_in" = Some (ClientCredentials._expires_in (final r)) ∧
        ClientCredentials._last_authorized_time (final r) = now))
  ∧
  (∀ self : UserCredentials.t,
     let r := UserCredentials.refresh session now self in
     let body := json_body (user_request session self) in
     Forall (λ s,
               (UserCredentials._expires_in s = UserCredentials._expires_in self ∧
                UserCredentials._last_authorized_time s
                = UserCredentials._last_authorized_time self)
               ∨
               (outcome r = Ok () ∧
                body !! "expires_in" = Some (UserCredentials._expires_in s) ∧
                UserCredentials._last_authorized_time s = now))
       (observable r)
     ∧ (outcome r = Ok () →
        body !! "expires_in" = Some (UserCredentials._expires_in (final r)) ∧
        UserCredentials._last_authorized_time (final r) = now))
  ∧
  (∀ data cid cs c,
     ClientCredentials.__init__ data cid cs now = Ok c →
     data !! "expires_in" = Some (ClientCredentials._expires_in c) ∧
     ClientCredentials._last_authorized_time c = now)
  ∧
  (∀ data cid cs u,
     UserCredentials.__init__ data cid cs now = Ok u →
     data !! "expires_in" = Some (UserCredentials._expires_in u) ∧
     UserCredentials._last_authorized_time u = now).
Proof.
  repeat apply conj.
  - intros self r body. subst r body.
    client_refresh_inv session now self; unfold observable; simpl;
      (split; [|try discriminate; done]);
      repeat (apply Forall_cons_2 || apply Forall_nil_2);
      solve [left; done | right; done].
  - intros self r body. subst r body.
    user_refresh_inv session now self; unfold observable; simpl;
      (split; [|try discriminate; done]);
      repeat (apply Forall_cons_2 || apply Forall_nil_2);
      solve [left; done | right; done].
  - intros data cid cs c Hinit.
    by apply client_init_Ok in Hinit as (_ & _ & Hex & _ & _ & Hlast).
  - intros data cid cs u Hinit.
    by apply user_init_Ok in Hinit as (_ & _ & Hex & _ & _ & _ & _ & Hlast).
Qed.

Example refresh_observed_states :
  observable (ClientCredentials.refresh (const_session (resp_ok body_AT1))
                (Qc_of_Z 2000) client0)
  = [client0; client0; client1; client1].
Proof. reflexivity. Qed.

(** A body without [expires_in]: the token fields are stored, the expiry
    clock keeps both of its old values. *)
Example refresh_without_expires_in :
  let r := ClientCredentials.refresh
             (const_session (resp_ok {[ "access_token" := JStr "AT1";
                                        "token_type" := JStr "Bearer" ]}))
             (Qc_of_Z 2000) client0 in
  outcome r = Raise (KeyError "expires_in") ∧
  ClientCredentials._access_token (final r) = JStr "AT1" ∧
  ClientCredentials._expires_in (final r) = JInt 3600 ∧
  ClientCredentials._last_authorized_time (final r) = Qc_of_Z 1000.
Proof. repeat split. Qed.

Lemma expiry_clock_updated_together_witness :
  ClientCredentials._expires_in
    (final (ClientCredentials.refresh (const_session (resp_ok body_AT1))
              (Qc_of_Z 2000) client0)) = JInt 3600
  ∧ ClientCredentials._last_authorized_time
      (final (ClientCredentials.refresh (const_session (resp_ok body_AT1))
                (Qc_of_Z 2000) client0)) = Qc_of_Z 2000
  ∧ UserCredentials._last_authorized_time
      (final (UserCredentials.refresh (const_session (resp_ok body_AT2))
                (Qc_of_Z 2000) user0)) = Qc_of_Z 2000
  ∧ UserCredentials._last_authorized_time user2 = Qc_of_Z 2000.
Proof.
  destruct (expiry_clock_updated_together (const_session (resp_ok body_AT1))
              (Qc_of_Z 2000)) as (Hc & _ & _ & _).
  destruct (expiry_clock_updated_together (const_session (resp_ok body_AT2))
              (Qc_of_Z 2000)) as (_ & Hu & _ & Hui).
  destruct (Hc client0) as [_ Hc']. destruct Hc' as [Hex Hlast]; [reflexivity|].
  destruct (Hu user0) as [_ Hu']. destruct Hu' as [_ Hulast]; [reflexivity|].
  repeat apply conj.
  - reflexivity.
  - exact Hlast.
  - exact Hulast.
  - apply (Hui body_AT2 "id"%string "secret"%string user2). reflexivity.
Defined.

(** * Construction from an incomplete payload *)

(** C8 as stated fails: the constructor of either class, given a payload
    without a required key, raises the [KeyError] of the subscript, which
    is not a [ValidationError]. *)
Lemma missing_field_is_not_a_ValidationError :
  "access_token"%string ∈ client_required
  ∧ (∅ : gmap string json) !! "access_token" = None
  ∧ ClientCredentials.__init__ ∅ "id" "secret" (Qc_of_Z 0)
    = Raise (KeyError "access_token")
  ∧ ¬ raises_ValidationError
        (ClientCredentials.__init__ ∅ "id" "secret" (Qc_of_Z 0))
  ∧ "scope"%string ∈ user_required
  ∧ body_AT1 !! "scope" = None
  ∧ UserCredentials.__init__ body_AT1 "id" "secret" (Qc_of_Z 0)
    = Raise (KeyError "scope")
  ∧ ¬ raises_ValidationError
        (UserCredentials.__init__ body_AT1 "id" "secret" (Qc_of_Z 0)).
Proof.
  repeat apply conj; try reflexivity.
  - unfold client_required. repeat constructor.
  - intros (e & [= <-] & Hname). discriminate Hname.
  - unfold user_required. repeat constructor.
  - intros (e & [= <-] & Hname). discriminate Hname.
Qed.

Ltac first_missing before k after :=
  exists before, k, after;
  split; [reflexivity|]; split; [|by split];
  repeat (apply Forall_cons_2 || apply Forall_nil_2); eauto.

Ltac none_missing H :=
  exfalso; unfold client_required, user_required in H;
  repeat (apply elem_of_cons in H as [->|H]; [congruence|]);
  by apply elem_of_nil in H.

(** C8, amended. When a required key [k] is absent from the payload, the
    constructor raises [KeyError] for the first absent required key in the
    order it reads them -- the key [k'] such that every required key before
    it is present and [k'] is not -- and returns no record. *)
Theorem missing_field_raises_KeyError
    (data : gmap string json) (cid cs : string) (now : Qc) (k : string) :
  data !! k = None →
  (k ∈ client_required →
   ∃ before k' after,
     client_required = before ++ k' :: after ∧
     Forall (λ j, is_Some (data !! j)) before ∧
     data !! k' = None ∧
     ClientCredentials.__init__ data cid cs now = Raise (KeyError k'))
  ∧
  (k ∈ user_required →
   ∃ before k' after,
     user_required = before ++ k' :: after ∧
     Forall (λ j, is_Some (data !! j)) before ∧
     data !! k' = None ∧
     UserCredentials.__init__ data cid cs now = Raise (KeyError k')).
Proof.
  intros Hk. split; intros Hreq.
  - unfold ClientCredentials.__init__, dict_getitem, mbind, result_bind.
    destruct (data !! "access_token") eqn:H1;
      [|first_missing (@nil string) "access_token"%string
          ["token_type"; "expires_in"]%string].
    destruct (data !! "token_type") eqn:H2;
      [|first_missing ["access_token"]%string "token_type"%string
          ["expires_in"]%string].
    destruct (data !! "expires_in") eqn:H3;
      [|first_missing ["access_token"; "token_type"]%string
          "expires_in"%string (@nil string)].
    none_missing Hreq.
  - unfold UserCredentials.__init__, dict_getitem, mbind, result_bind.
    destruct (data !! "access_token") eqn:H1;
      [|first_missing (@nil string) "access_token"%string
          ["token_type"; "expires_in"; "scope"]%string].
    destruct (data !! "token_type") eqn:H2;
      [|first_missing ["access_token"]%string "token_type"%string
          ["expires_in"; "scope"]%string].
    destruct (data !! "expires_in") eqn:H3;
      [|first_missing ["access_token"; "token_type"]%string
          "expires_in"%string ["scope"]%string].
    destruct (data !! "scope") eqn:H4;
      [|first_missing ["access_token"; "token_type"; "expires_in"]%string
          "scope"%string (@nil string)].
    none_missing Hreq.
Qed.

(** [body_token_only] lacks [token_type] and [expires_in]: the constructor
    reports [token_type].  [body_AT1] lacks only [scope]. *)
Lemma missing_field_raises_KeyError_witness :
  (∃ before k' after,
     client_required = before ++ k' :: after ∧
     Forall (λ j, is_Some (body_token_only !! j)) before ∧
     body_token_only !! k' = None ∧
     ClientCredentials.__init__ body_token_only "id" "secret" (Qc_of_Z 0)
     = Raise (KeyError k'))
  ∧
  (∃ before k' after,
     user_required = before ++ k' :: after ∧
     Forall (λ j, is_Some (body_AT1 !! j)) before ∧
     body_AT1 !! k' = None ∧
     UserCredentials.__init__ body_AT1 "id" "secret" (Qc_of_Z 0)
     = Raise (KeyError k')).
Proof.
  assert (H1 : body_token_only !! "expires_in" = None) by reflexivity.
  assert (H2 : body_AT1 !! "scope" = None) by reflexivity.
  split.
  - apply (proj1 (missing_field_raises_KeyError
                    body_token_only "id" "secret" (Qc_of_Z 0) "expires_in" H1)).
    unfold client_required. repeat constructor.
  - apply (proj2 (missing_field_raises_KeyError
                    body_AT1 "id" "secret" (Qc_of_Z 0) "scope" H2)).
    unfold user_required. repeat constructor.
Defined.

Example missing_token_type_is_reported_first :
  ClientCredentials.__init__ body_token_only "id" "secret" (Qc_of_Z 0)
  = Raise (KeyError "token_type").
Proof. reflexivity. Qed.

(** * The client identifiers *)

Lemma client_refresh_preserves_identifiers session now (cid cs : string) :
  preserves (λ s, ClientCredentials._client_id s = cid ∧
                  ClientCredentials._client_secret s = cs)
    (ClientCredentials.refresh session now).
Proof.
  unfold ClientCredentials.refresh. cbv zeta.
  repeat (preserves_step; try (simpl; assumption)).
Qed.

Lemma client_is_expired_preserves_identifiers now (cid cs : string) :
  preserves (λ s, ClientCredentials._client_id s = cid ∧
                  ClientCredentials._client_secret s = cs)
    (ClientCredentials.is_expired now).
Proof. unfold ClientCredentials.is_expired. repeat preserves_step. Qed.

Lemma user_refresh_preserves_identifiers session now (cid cs : string) :
  preserves (λ s, UserCredentials._client_id s = cid ∧
                  UserCredentials._client_secret s = cs)
    (UserCredentials.refresh session now).
Proof.
  unfold UserCredentials.refresh. cbv zeta.
  repeat (preserves_step; try (simpl; assumption)).
Qed.

Lemma user_is_expired_preserves_identifiers now (cid cs : string) :
  preserves (λ s, UserCredentials._client_id s = cid ∧
                  UserCredentials._client_secret s = cs)
    (UserCredentials.is_expired now).
Proof. unfold UserCredentials.is_expired. repeat preserves_step. Qed.

(** C10. [client_id] and [client_secret] are the constructor's arguments,
    and in every state of [self] that can be observed during [is_expired]
    or [refresh] (at a suspension point or on exit, whether the call
    returns or raises) they are what they were before the call. *)
Theorem identifiers_written_once (session : ClientSession) (now : Qc) :
  (∀ data cid cs c,
     ClientCredentials.__init__ data cid cs now = Ok c →
     ClientCredentials._client_id c = cid ∧
     ClientCredentials._client_secret c = cs)
  ∧
  (∀ self : ClientCredentials.t,
     Forall (λ s, ClientCredentials._client_id s = ClientCredentials._client_id self ∧
                  ClientCredentials._client_secret s
                  = ClientCredentials._client_secret self)
       (observable (ClientCredentials.is_expired now self)
        ++ observable (ClientCredentials.refresh session now self)))
  ∧
  (∀ data cid cs u,
     UserCredentials.__init__ data cid cs now = Ok u →
     UserCredentials._client_id u = cid ∧
     UserCredentials._client_secret u = cs)
  ∧
  (∀ self : UserCredentials.t,
     Forall (λ s, UserCredentials._client_id s = UserCredentials._client_id self ∧
                  UserCredentials._client_secret s
                  = UserCredentials._client_secret self)
       (observable (UserCredentials.is_expired now self)
        ++ observable (UserCredentials.refresh session now self))).
Proof.
  repeat apply conj.
  - intros data cid cs c Hinit.
    by apply client_init_Ok in Hinit as (_ & _ & _ & Hid & Hsecret & _).
  - intros self. apply Forall_app; split.
    + apply preserves_observable; [|done].
      apply client_is_expired_preserves_identifiers.
    + apply preserves_observable; [|done].
      apply client_refresh_preserves_identifiers.
  - intros data cid cs u Hinit.
    by apply user_init_Ok in Hinit as (_ & _ & _ & _ & _ & Hid & Hsecret & _).
  - intros self. apply Forall_app; split.
    + apply preserves_observable; [|done].
      apply user_is_expired_preserves_identifiers.
    + apply preserves_observable; [|done].
      apply user_refresh_preserves_identifiers.
Qed.

Lemma identifiers_written_once_witness :
  ClientCredentials._client_id client1 = "id"%string
  ∧ ClientCredentials._client_secret client1 = "secret"%string
  ∧ UserCredentials._client_id user2 = "id"%string
  ∧ UserCredentials._client_secret user2 = "secret"%string.
Proof.
  destruct (identifiers_written_once session_invalid_grant (Qc_of_Z 2000))
    as (Hc & _ & Hu & _).
  destruct (Hc body_AT1 "id"%string "secret"%string client1) as [? ?];
    [reflexivity|].
  destruct (Hu body_AT2 "id"%string "secret"%string user2) as [? ?];
    [reflexivity|].
  repeat split; assumption.
Defined.


(** * The runs of [refresh], case by case *)

Lemma client_refresh_run session now (self : ClientCredentials.t) :
  ClientCredentials.refresh session now self
  = let response := client_request session self in
    let body := json_body response in
    if signals_error body
    then Run [self; self; self] (Raise (AuthenticationError response body)) self
    else
      match body !! "access_token" with
      | None => Run [self; self; self] (Raise (KeyError "access_token")) self
      | Some a =>
          let s1 := ClientCredentials.set_access_token a self in
          match body !! "token_type" with
          | None => Run [self; self; s1] (Raise (KeyError "token_type")) s1
          | Some ty =>
              let s2 := ClientCredentials.set_token_type ty s1 in
              match body !! "expires_in" with
              | None => Run [self; self; s2] (Raise (KeyError "expires_in")) s2
              | Some ex =>
                  Run [self; self; client_refreshed a ty ex now self] (Ok ())
                      (client_refreshed a ty ex now self)
              end
          end
      end.
Proof.
  unfold ClientCredentials.refresh. run_coro.
  change (session TOKEN_URL _) with (client_request session self).
  unfold signals_error, dict_getitem.
  destruct (truthy _); [reflexivity|]. simpl.
  destruct (_ !! "access_token"); [|reflexivity]. simpl.
  destruct (_ !! "token_type"); [|reflexivity]. simpl.
  destruct (_ !! "expires_in"); reflexivity.
Qed.

Lemma user_refresh_run session now (self : UserCredentials.t) :
  UserCredentials.refresh session now self
  = let response := user_request session self in
    let body := json_body response in
    if signals_error body
    then Run [self; self; self] (Raise (AuthenticationError response body)) self
    else
      match body !! "access_token" with
      | None => Run [self; self; self] (Raise (KeyError "access_token")) self
      | Some a =>
          let s1 := UserCredentials.set_access_token a self in
          match body !! "token_type" with
          | None => Run [self; self; s1] (Raise (KeyError "token_type")) s1
          | Some ty =>
              let s2 := UserCredentials.set_token_type ty s1 in
              match body !! "scope" with
              | None => Run [self; self; s2] (Raise (KeyError "scope")) s2
              | Some sc =>
                  let s3 := UserCredentials.set_scope sc s2 in
                  match body !! "expires_in" with
                  | None => Run [self; self; s3] (Raise (KeyError "expires_in")) s3
                  | Some ex =>
                      Run [self; self; user_refreshed a ty sc ex now self] (Ok ())
                          (user_refreshed a ty sc ex now self)
                  end
              end
          end
      end.
Proof.
  unfold UserCredentials.refresh. run_coro.
  change (session TOKEN_URL _) with (user_request session self).
  unfold signals_error, dict_getitem.
  destruct (truthy _); [reflexivity|]. simpl.
  destruct (_ !! "access_token"); [|reflexivity]. simpl.
  destruct (_ !! "token_type"); [|reflexivity]. simpl.
  destruct (_ !! "scope"); [|reflexivity]. simpl.
  destruct (_ !! "expires_in"); reflexivity.
Qed.

(** * The one request of each operation *)

(** X1. The run of each network operation depends on the session only
    through its answer to one request: the POST to [TOKEN_URL] with the
    grant form built from the stored (or given) identifiers.  Two sessions
    that answer that request alike give the same run, whatever they answer
    to any other request. *)
Theorem operations_depend_on_one_post (s1 s2 : ClientSession) (now : Qc) :
  (∀ self : ClientCredentials.t,
     s1 TOKEN_URL (ClientCredentials.grant (ClientCredentials._client_id self)
                     (ClientCredentials._client_secret self))
     = s2 TOKEN_URL (ClientCredentials.grant (ClientCredentials._client_id self)
                       (ClientCredentials._client_secret self)) →
     ClientCredentials.refresh s1 now self = ClientCredentials.refresh s2 now self)
  ∧
  (∀ self : UserCredentials.t,
     s1 TOKEN_URL (UserCredentials.grant (UserCredentials._refresh_token self)
                     (UserCredentials._client_id self)
                     (UserCredentials._client_secret self))
     = s2 TOKEN_URL (UserCredentials.grant (UserCredentials._refresh_token self)
                       (UserCredentials._client_id self)
                       (UserCredentials._client_secret self)) →
     UserCredentials.refresh s1 now self = UserCredentials.refresh s2 now self)
  ∧
  (∀ cid cs,
     s1 TOKEN_URL (ClientCredentials.grant cid cs)
     = s2 TOKEN_URL (ClientCredentials.grant cid cs) →
     ClientCredentials.from_client_secret cid cs s1 now ()
     = ClientCredentials.from_client_secret cid cs s2 now ())
  ∧
  (∀ cid cs rt,
     s1 TOKEN_URL (UserCredentials.grant (JStr rt) cid cs)
     = s2 TOKEN_URL (UserCredentials.grant (JStr rt) cid cs) →
     UserCredentials.from_refresh_token cid cs s1 rt now ()
     = UserCredentials.from_refresh_token cid cs s2 rt now ()).
Proof.
  repeat apply conj.
  - intros self Hreq. rewrite !client_refresh_run. unfold client_request.
    by rewrite Hreq.
  - intros self Hreq. rewrite !user_refresh_run. unfold user_request.
    by rewrite Hreq.
  - intros cid cs Hreq. unfold ClientCredentials.from_client_secret.
    cbv zeta. unfold post. by rewrite Hreq.
  - intros cid cs rt Hreq. unfold UserCredentials.from_refresh_token.
    cbv zeta. unfold post. by rewrite Hreq.
Qed.

Lemma operations_depend_on_one_post_witness :
  UserCredentials.refresh session_only_token_url (Qc_of_Z 2000) user0
  = UserCredentials.refresh (const_session (resp_ok body_AT2)) (Qc_of_Z 2000) user0
  ∧ ClientCredentials.from_client_secret "id" "secret"
      session_only_token_url (Qc_of_Z 2000) ()
    = ClientCredentials.from_client_secret "id" "secret"
        (const_session (resp_ok body_AT2)) (Qc_of_Z 2000) ().
Proof.
  destruct (operations_depend_on_one_post session_only_token_url
              (const_session (resp_ok body_AT2)) (Qc_of_Z 2000))
    as (_ & Hu & Hf & _).
  split.
  - apply Hu. reflexivity.
  - apply Hf. reflexivity.
Defined.

(** * Refused and incomplete responses *)

(** X2. Whenever the body carries a truthy [error] -- even beside a full
    set of token fields -- [refresh] raises the [AuthenticationError] of
    that response and [self] is the same record at every suspension point
    and on exit. *)
Theorem refused_refresh_changes_nothing (session : ClientSession) (now : Qc) :
  (∀ self : ClientCredentials.t,
     signals_error (json_body (client_request session self)) = true →
     ClientCredentials.refresh session now self
     = Run [self; self; self]
           (Raise (AuthenticationError (client_request session self)
                     (json_body (client_request session self)))) self)
  ∧
  (∀ self : UserCredentials.t,
     signals_error (json_body (user_request session self)) = true →
     UserCredentials.refresh session now self
     = Run [self; self; self]
           (Raise (AuthenticationError (user_request session self)
                     (json_body (user_request session self)))) self).
Proof.
  split; intros self Herr.
  - rewrite client_refresh_run. cbv zeta. by rewrite Herr.
  - rewrite user_refresh_run. cbv zeta. by rewrite Herr.
Qed.

Lemma refused_refresh_changes_nothing_witness :
  ClientCredentials.refresh (const_session (resp_ok body_slow_down))
    (Qc_of_Z 2000) client0
  = Run [client0; client0; client0]
        (Raise (AuthenticationError (resp_ok body_slow_down) body_slow_down))
        client0
  ∧ final (UserCredentials.refresh (const_session (resp_ok body_slow_down))
             (Qc_of_Z 2000) user0) = user0.
Proof.
  assert (Hc : signals_error
                 (json_body (client_request
                               (const_session (resp_ok body_slow_down)) client0))
               = true) by reflexivity.
  assert (Hu : signals_error
                 (json_body (user_request
                               (const_session (resp_ok body_slow_down)) user0))
               = true) by reflexivity.
  split.
  - exact (proj1 (refused_refresh_changes_nothing _ (Qc_of_Z 2000)) client0 Hc).
  - rewrite (proj2 (refused_refresh_changes_nothing _ (Qc_of_Z 2000)) user0 Hu).
    reflexivity.
Defined.

(** X3. [ClientCredentials.refresh] on a body that passes the error check
    but lacks a field raises [KeyError] for the first absent key in the
    order [access_token], [token_type], [expires_in], after having stored
    the fields read before it: the record is left half updated, with the
    old [expires_in] and [last_authorized_time]. *)
Theorem client_refresh_stops_at_first_missing_key
    (session : ClientSession) (now : Qc) (self : ClientCredentials.t) :
  signals_error (json_body (client_request session self)) = false →
  (json_body (client_request session self) !! "access_token" = None →
   ClientCredentials.refresh session now self
   = Run [self; self; self] (Raise (KeyError "access_token")) self)
  ∧
  (∀ a,
     json_body (client_request session self) !! "access_token" = Some a →
     json_body (client_request session self) !! "token_type" = None →
     ClientCredentials.refresh session now self
     = Run [self; self; ClientCredentials.set_access_token a self]
           (Raise (KeyError "token_type"))
           (ClientCredentials.set_access_token a self))
  ∧
  (∀ a ty,
     json_body (client_request session self) !! "access_token" = Some a →
     json_body (client_request session self) !! "token_type" = Some ty →
     json_body (client_request session self) !! "expires_in" = None →
     ClientCredentials.refresh session now self
     = Run [self; self;
            ClientCredentials.set_token_type ty
              (ClientCredentials.set_access_token a self)]
           (Raise (KeyError "expires_in"))
           (ClientCredentials.set_token_type ty
              (ClientCredentials.set_access_token a self))).
Proof.
  intros Herr. rewrite client_refresh_run. cbv zeta. rewrite Herr.
  repeat apply conj.
  - by intros ->.
  - by intros a -> ->.
  - by intros a ty -> -> ->.
Qed.

Lemma client_refresh_stops_at_first_missing_key_witness :
  ClientCredentials.refresh (const_session (resp_ok body_no_token_type))
    (Qc_of_Z 2000) client0
  = Run [client0; client0;
         ClientCredentials.set_access_token (JStr "AT5") client0]
        (Raise (KeyError "token_type"))
        (ClientCredentials.set_access_token (JStr "AT5") client0).
Proof.
  assert (Herr : signals_error
                   (json_body (client_request
                                 (const_session (resp_ok body_no_token_type))
                                 client0)) = false) by reflexivity.
  apply (proj1 (proj2 (client_refresh_stops_at_first_missing_key
                         _ (Qc_of_Z 2000) client0 Herr))); reflexivity.
Defined.

(** X4. [UserCredentials.refresh] reads [access_token], [token_type],
    [scope], [expires_in] in that order: it raises [KeyError] for the first
    absent one, with the earlier ones already stored. *)
Theorem user_refresh_stops_at_first_missing_key
    (session : ClientSession) (now : Qc) (self : UserCredentials.t) :
  signals_error (json_body (user_request session self)) = false →
  (json_body (user_request session self) !! "access_token" = None →
   UserCredentials.refresh session now self
   = Run [self; self; self] (Raise (KeyError "access_token")) self)
  ∧
  (∀ a,
     json_body (user_request session self) !! "access_token" = Some a →
     json_body (user_request session self) !! "token_type" = None →
     UserCredentials.refresh session now self
     = Run [self; self; UserCredentials.set_access_token a self]
           (Raise (KeyError "token_type"))
           (UserCredentials.set_access_token a self))
  ∧
  (∀ a ty,
     json_body (user_request session self) !! "access_token" = Some a →
     json_body (user_request session self) !! "token_type" = Some ty →
     json_body (user_request session self) !! "scope" = None →
     UserCredentials.refresh session now self
     = Run [self; self;
            UserCredentials.set_token_type ty
              (UserCredentials.set_access_token a self)]
           (Raise (KeyError "scope"))
           (UserCredentials.set_token_type ty
              (UserCredentials.set_access_token a self)))
  ∧
  (∀ a ty sc,
     json_body (user_request session self) !! "access_token" = Some a →
     json_body (user_request session self) !! "token_type" = Some ty →
     json_body (user_request session self) !! "scope" = Some sc →
     json_body (user_request session self) !! "expires_in" = None →
     UserCredentials.refresh session now self
     = Run [self; self;
            UserCredentials.set_scope sc
              (UserCredentials.set_token_type ty
                 (UserCredentials.set_access_token a self))]
           (Raise (KeyError "expires_in"))
           (UserCredentials.set_scope sc
              (UserCredentials.set_token_type ty
                 (UserCredentials.set_access_token a self)))).
Proof.
  intros Herr. rewrite user_refresh_run. cbv zeta. rewrite Herr.
  repeat apply conj.
  - by intros ->.
  - by intros a -> ->.
  - by intros a ty -> -> ->.
  - by intros a ty sc -> -> -> ->.
Qed.

(** [body_AT1] has no [scope]: the access token and its type are replaced,
    the scope and the expiry clock are not. *)
Lemma user_refresh_stops_at_first_missing_key_witness :
  UserCredentials.refresh (const_session (resp_ok body_AT1)) (Qc_of_Z 2000) user0
  = Run [user0; user0;
         UserCredentials.set_token_type (JStr "Bearer")
           (UserCredentials.set_access_token (JStr "AT1") user0)]
        (Raise (KeyError "scope"))
        (UserCredentials.set_token_type (JStr "Bearer")
           (UserCredentials.set_access_token (JStr "AT1") user0)).
Proof.
  assert (Herr : signals_error
                   (json_body (user_request (const_session (resp_ok body_AT1))
                                 user0)) = false) by reflexivity.
  apply (proj1 (proj2 (proj2 (user_refresh_stops_at_first_missing_key
                                _ (Qc_of_Z 2000) user0 Herr)))); reflexivity.
Defined.

(** * Successful refreshes *)

(** X5. [refresh] returns normally exactly when the body passes the error
    check and carries every field the method reads. *)
Theorem refresh_succeeds_iff (session : ClientSession) (now : Qc) :
  (∀ self : ClientCredentials.t,
     outcome (ClientCredentials.refresh session now self) = Ok () ↔
     signals_error (json_body (client_request session self)) = false ∧
     Forall (λ k, is_Some (json_body (client_request session self) !! k))
       client_required)
  ∧
  (∀ self : UserCredentials.t,
     outcome (UserCredentials.refresh session now self) = Ok () ↔
     signals_error (json_body (user_request session self)) = false ∧
     Forall (λ k, is_Some (json_body (user_request session self) !! k))
       user_required).
Proof.
  split; intros self.
  - rewrite client_refresh_run. cbv zeta. unfold client_required.
    rewrite !Forall_cons, Forall_nil.
    destruct (signals_error _); simpl; [split; [done|by intros [? _]]|].
    destruct (_ !! "access_token"); simpl;
      [|split; [done|intros (_ & [? [=]] & _)]].
    destruct (_ !! "token_type"); simpl;
      [|split; [done|intros (_ & _ & [? [=]] & _)]].
    destruct (_ !! "expires_in"); simpl;
      [|split; [done|intros (_ & _ & _ & [? [=]] & _)]].
    split; [|done]. intros _. repeat split; eauto.
  - rewrite user_refresh_run. cbv zeta. unfold user_required.
    rewrite !Forall_cons, Forall_nil.
    destruct (signals_error _); simpl; [split; [done|by intros [? _]]|].
    destruct (_ !! "access_token"); simpl;
      [|split; [done|intros (_ & [? [=]] & _)]].
    destruct (_ !! "token_type"); simpl;
      [|split; [done|intros (_ & _ & [? [=]] & _)]].
    destruct (_ !! "scope"); simpl;
      [|split; [done|intros (_ & _ & _ & _ & [? [=]] & _)]].
    destruct (_ !! "expires_in"); simpl;
      [|split; [done|intros (_ & _ & _ & [? [=]] & _)]].
    split; [|done]. intros _. repeat split; eauto.
Qed.

(** X6. A successful [ClientCredentials.refresh] ends with the body's
    [access_token], [token_type] and [expires_in] and the current time
    stored, and [client_id] and [client_secret] as they were. *)
Theorem client_refresh_stores_the_response
    (session : ClientSession) (now : Qc) (self : ClientCredentials.t) :
  outcome (ClientCredentials.refresh session now self) = Ok () →
  ∃ a ty ex,
    json_body (client_request session self) !! "access_token" = Some a ∧
    json_body (client_request session self) !! "token_type" = Some ty ∧
    json_body (client_request session self) !! "expires_in" = Some ex ∧
    final (ClientCredentials.refresh session now self)
    = {| ClientCredentials._access_token := a;
         ClientCredentials._token_type := ty;
         ClientCredentials._expires_in := ex;
         ClientCredentials._client_id := ClientCredentials._client_id self;
         ClientCredentials._client_secret := ClientCredentials._client_secret self;
         ClientCredentials._last_authorized_time := now |}.
Proof.
  intros Hok.
  client_refresh_inv session now self; try discriminate.
  exists a, ty, ex. by repeat split.
Qed.

Lemma client_refresh_stores_the_response_witness :
  ∃ a ty ex,
    body_AT1 !! "access_token" = Some a ∧
    body_AT1 !! "token_type" = Some ty ∧
    body_AT1 !! "expires_in" = Some ex ∧
    final (ClientCredentials.refresh (const_session (resp_ok body_AT1))
             (Qc_of_Z 2000) client0)
    = {| ClientCredentials._access_token := a;
         ClientCredentials._token_type := ty;
         ClientCredentials._expires_in := ex;
         ClientCredentials._client_id := "id";
         ClientCredentials._client_secret := "secret";
         ClientCredentials._last_authorized_time := Qc_of_Z 2000 |}.
Proof.
  assert (Hok : outcome (ClientCredentials.refresh
                           (const_session (resp_ok body_AT1))
                           (Qc_of_Z 2000) client0) = Ok ()) by reflexivity.
  exact (client_refresh_stores_the_response _ _ _ Hok).
Defined.

(** * The constructors *)

(** X7. A constructor returns a record exactly when the payload has every
    key it subscripts, and the record is then made of the payload's values,
    the two identifiers and the current time ([refresh_token] being
    [data.get("refresh_token")]). *)
Theorem init_succeeds_iff
    (data : gmap string json) (cid cs : string) (now : Qc) :
  (∀ c,
     ClientCredentials.__init__ data cid cs now = Ok c ↔
     data !! "access_token" = Some (ClientCredentials._access_token c) ∧
     data !! "token_type" = Some (ClientCredentials._token_type c) ∧
     data !! "expires_in" = Some (ClientCredentials._expires_in c) ∧
     ClientCredentials._client_id c = cid ∧
     ClientCredentials._client_secret c = cs ∧
     ClientCredentials._last_authorized_time c = now)
  ∧
  (∀ u,
     UserCredentials.__init__ data cid cs now = Ok u ↔
     data !! "access_token" = Some (UserCredentials._access_token u) ∧
     data !! "token_type" = Some (UserCredentials._token_type u) ∧
     data !! "expires_in" = Some (UserCredentials._expires_in u) ∧
     data !! "scope" = Some (UserCredentials._scope u) ∧
     UserCredentials._refresh_token u = dict_get data "refresh_token" ∧
     UserCredentials._client_id u = cid ∧
     UserCredentials._client_secret u = cs ∧
     UserCredentials._last_authorized_time u = now).
Proof.
  split.
  - intros c. split; [apply client_init_Ok|].
    intros (Ha & Hty & Hex & <- & <- & <-).
    unfold ClientCredentials.__init__, dict_getitem, mbind, result_bind.
    rewrite Ha, Hty, Hex. by destruct c.
  - intros u. split; [apply user_init_Ok|].
    intros (Ha & Hty & Hex & Hsc & Hrt & <- & <- & <-).
    unfold UserCredentials.__init__, dict_getitem, mbind, result_bind.
    rewrite Ha, Hty, Hex, Hsc, <- Hrt. by destruct u.
Qed.

Lemma not_elem_of_cons_ne {A} (x y : A) (l : list A) :
  x ∉ y :: l → y ≠ x ∧ x ∉ l.
Proof. rewrite not_elem_of_cons. intros [Hne Hl]. split; [congruence|done]. Qed.

(** X8. A constructor looks at no other key of the payload: adding or
    changing a key it does not read leaves its result the same. *)
Theorem init_ignores_other_keys
    (data : gmap string json) (k : string) (v : json)
    (cid cs : string) (now : Qc) :
  (k ∉ client_required →
   ClientCredentials.__init__ (<[k := v]> data) cid cs now
   = ClientCredentials.__init__ data cid cs now)
  ∧
  (k ∉ "refresh_token"%string :: user_required →
   UserCredentials.__init__ (<[k := v]> data) cid cs now
   = UserCredentials.__init__ data cid cs now).
Proof.
  split; intros Hk.
  - unfold client_required in Hk.
    apply not_elem_of_cons_ne in Hk as [H1 Hk].
    apply not_elem_of_cons_ne in Hk as [H2 Hk].
    apply not_elem_of_cons_ne in Hk as [H3 _].
    unfold ClientCredentials.__init__, dict_getitem.
    by rewrite !lookup_insert_ne by congruence.
  - unfold user_required in Hk.
    apply not_elem_of_cons_ne in Hk as [H0 Hk].
    apply not_elem_of_cons_ne in Hk as [H1 Hk].
    apply not_elem_of_cons_ne in Hk as [H2 Hk].
    apply not_elem_of_cons_ne in Hk as [H3 Hk].
    apply not_elem_of_cons_ne in Hk as [H4 _].
    unfold UserCredentials.__init__, dict_getitem, dict_get.
    by rewrite !lookup_insert_ne by congruence.
Qed.

(** [ClientCredentials] ignores the [scope] and [refresh_token] of a
    payload. *)
Lemma init_ignores_other_keys_witness :
  ClientCredentials.__init__ (<["scope" := JStr "user-read"]> body_AT1)
    "id" "secret" (Qc_of_Z 2000)
  = ClientCredentials.__init__ body_AT1 "id" "secret" (Qc_of_Z 2000)
  ∧ UserCredentials.__init__ (<["error" := JStr ""]> body_AT2)
      "id" "secret" (Qc_of_Z 2000)
    = UserCredentials.__init__ body_AT2 "id" "secret" (Qc_of_Z 2000).
Proof.
  split.
  - apply (proj1 (init_ignores_other_keys body_AT1 "scope" (JStr "user-read")
                    "id" "secret" (Qc_of_Z 2000))).
    unfold client_required. rewrite !not_elem_of_cons.
    repeat split; try discriminate. apply not_elem_of_nil.
  - apply (proj2 (init_ignores_other_keys body_AT2 "error" (JStr "")
                    "id" "secret" (Qc_of_Z 2000))).
    unfold user_required. rewrite !not_elem_of_cons.
    repeat split; try discriminate. apply not_elem_of_nil.
Defined.

(** * Factories and refreshes compared *)

(** X9. A factory and a refresh make the same exchange: for a record that
    holds the same identifiers (and, for [UserCredentials], the same
    refresh token), the factory returns [c] exactly when the refresh
    succeeds and leaves [self] equal to [c]. *)
Theorem factory_agrees_with_refresh (session : ClientSession) (now : Qc) :
  (∀ (self c : ClientCredentials.t),
     outcome (ClientCredentials.from_client_secret
                (ClientCredentials._client_id self)
                (ClientCredentials._client_secret self) session now ()) = Ok c
     ↔
     outcome (ClientCredentials.refresh session now self) = Ok () ∧
     final (ClientCredentials.refresh session now self) = c)
  ∧
  (∀ (self u : UserCredentials.t) (rt : string),
     UserCredentials._refresh_token self = JStr rt →
     outcome (UserCredentials.from_refresh_token
                (UserCredentials._client_id self)
                (UserCredentials._client_secret self) session rt now ()) = Ok u
     ↔
     outcome (UserCredentials.refresh session now self) = Ok () ∧
     final (UserCredentials.refresh session now self) = u).
Proof.
  split.
  - intros self c.
    rewrite client_factory_run, client_refresh_run. cbv zeta.
    unfold client_request.
    destruct (signals_error _); simpl; [split; [done|by intros [? _]]|].
    unfold ClientCredentials.__init__, dict_getitem, mbind, result_bind.
    destruct (_ !! "access_token"); simpl; [|split; [done|by intros [? _]]].
    destruct (_ !! "token_type"); simpl; [|split; [done|by intros [? _]]].
    destruct (_ !! "expires_in"); simpl; [|split; [done|by intros [? _]]].
    split; [by intros [= <-]|by intros [_ <-]].
  - intros self u rt Hrt.
    rewrite user_factory_run, user_refresh_run. cbv zeta.
    unfold user_request. rewrite Hrt.
    destruct (signals_error _); simpl; [split; [done|by intros [? _]]|].
    unfold UserCredentials.__init__, dict_getitem, dict_get, mbind, result_bind.
    rewrite lookup_insert_eq, !lookup_insert_ne by done.
    destruct (_ !! "access_token"); simpl; [|split; [done|by intros [? _]]].
    destruct (_ !! "token_type"); simpl; [|split; [done|by intros [? _]]].
    destruct (_ !! "expires_in"), (_ !! "scope"); simpl;
      try (split; [done|by intros [? _]]).
    unfold user_refreshed, UserCredentials.set_last_authorized_time,
      UserCredentials.set_expires_in, UserCredentials.set_scope,
      UserCredentials.set_token_type, UserCredentials.set_access_token; simpl.
    rewrite Hrt.
    split; [by intros [= <-]|by intros [_ <-]].
Qed.

Lemma factory_agrees_with_refresh_witness :
  outcome (UserCredentials.from_refresh_token "id" "secret"
             (const_session (resp_ok body_AT2)) "RT1" (Qc_of_Z 2000) ())
  = Ok user1.
Proof.
  apply (proj2 (factory_agrees_with_refresh (const_session (resp_ok body_AT2))
                  (Qc_of_Z 2000)) user0 user1 "RT1"%string eq_refl).
  split; reflexivity.
Defined.

(** X10. A refresh, whether it returns or raises, does not change what
    the next refresh sends.  So whatever session [s'] the next refresh
    uses, it ends as a refresh of the original record with [s'] would have
    ended -- the same value or the same exception -- and, when it succeeds,
    with the same record: a success wipes out whatever an earlier failed
    refresh had stored. *)
Theorem refresh_can_be_repeated (s s' : ClientSession) (now now' : Qc) :
  (∀ self : ClientCredentials.t,
     client_request s' (final (ClientCredentials.refresh s now self))
     = client_request s' self
     ∧ outcome (ClientCredentials.refresh s' now'
                  (final (ClientCredentials.refresh s now self)))
       = outcome (ClientCredentials.refresh s' now' self)
     ∧ (outcome (ClientCredentials.refresh s' now' self) = Ok () →
        final (ClientCredentials.refresh s' now'
                 (final (ClientCredentials.refresh s now self)))
        = final (ClientCredentials.refresh s' now' self)))
  ∧
  (∀ self : UserCredentials.t,
     user_request s' (final (UserCredentials.refresh s now self))
     = user_request s' self
     ∧ outcome (UserCredentials.refresh s' now'
                  (final (UserCredentials.refresh s now self)))
       = outcome (UserCredentials.refresh s' now' self)
     ∧ (outcome (UserCredentials.refresh s' now' self) = Ok () →
        final (UserCredentials.refresh s' now'
                 (final (UserCredentials.refresh s now self)))
        = final (UserCredentials.refresh s' now' self))).
Proof.
  split; intros self.
  - assert (Hreq : client_request s'
                     (final (ClientCredentials.refresh s now self))
                   = client_request s' self).
    { destruct (client_refresh_preserves_identifiers s now _ _ self
                  (conj eq_refl eq_refl)) as [_ [Hid Hsecret]].
      unfold client_request. by rewrite Hid, Hsecret. }
    split; [exact Hreq|].
    rewrite (client_refresh_run s' now' (final _)), Hreq.
    rewrite (client_refresh_run s' now' self). cbv zeta.
    destruct (signals_error _); [done|].
    destruct (_ !! "access_token"); [|done].
    destruct (_ !! "token_type"); [|done].
    destruct (_ !! "expires_in"); [|done].
    split; [done|]. intros _. simpl.
    rewrite (client_refresh_run s now self). cbv zeta.
    destruct (signals_error _); [done|].
    destruct (_ !! "access_token"); [|done].
    destruct (_ !! "token_type"); [|done].
    destruct (_ !! "expires_in"); done.
  - assert (Hreq : user_request s'
                     (final (UserCredentials.refresh s now self))
                   = user_request s' self).
    { destruct (user_refresh_preserves_identifiers s now _ _ self
                  (conj eq_refl eq_refl)) as [_ [Hid Hsecret]].
      destruct (user_refresh_preserves_refresh_token s now _ self
                  eq_refl) as [_ Hrt].
      unfold user_request. by rewrite Hid, Hsecret, Hrt. }
    split; [exact Hreq|].
    rewrite (user_refresh_run s' now' (final _)), Hreq.
    rewrite (user_refresh_run s' now' self). cbv zeta.
    destruct (signals_error _); [done|].
    destruct (_ !! "access_token"); [|done].
    destruct (_ !! "token_type"); [|done].
    destruct (_ !! "scope"); [|done].
    destruct (_ !! "expires_in"); [|done].
    split; [done|]. intros _. simpl.
    rewrite (user_refresh_run s now self). cbv zeta.
    destruct (signals_error _); [done|].
    destruct (_ !! "access_token"); [|done].
    destruct (_ !! "token_type"); [|done].
    destruct (_ !! "scope"); [|done].
    destruct (_ !! "expires_in"); done.
Qed.

(** A refresh answered without [scope] stores the new access token and
    fails; the next one, answered in full, succeeds as on [user0]. *)
Lemma refresh_can_be_repeated_witness :
  outcome (UserCredentials.refresh (const_session (resp_ok body_AT1))
             (Qc_of_Z 1500) user0) = Raise (KeyError "scope")
  ∧ final (UserCredentials.refresh (const_session (resp_ok body_AT2))
             (Qc_of_Z 2000)
             (final (UserCredentials.refresh (const_session (resp_ok body_AT1))
                       (Qc_of_Z 1500) user0)))
    = user1.
Proof.
  split; [reflexivity|].
  destruct (refresh_can_be_repeated (const_session (resp_ok body_AT1))
              (const_session (resp_ok body_AT2)) (Qc_of_Z 1500) (Qc_of_Z 2000))
    as [_ Hu].
  destruct (Hu user0) as (_ & _ & Hfinal).
  rewrite Hfinal; reflexivity.
Defined.

(** * More on the expiry test *)

Lemma float_ge_mono (x y : efloat) (v : json) :
  (∀ q, efloat_ge x q → efloat_ge y q) →
  float_ge x v = Ok true → float_ge y v = Ok true.
Proof.
  intros Hxy. destruct v; simpl; try discriminate;
    intros [= H%bool_decide_eq_true]; f_equal; apply bool_decide_eq_true;
    by apply Hxy.
Qed.

(** X11. Expiry is permanent as time goes on: if [is_expired()] is true at
    some time it is true at every later time, as long as the record is not
    refreshed. *)
Theorem is_expired_stays_true (t1 t2 : Qc) :
  (t1 ≤ t2)%Qc →
  (∀ self : ClientCredentials.t,
     outcome (ClientCredentials.is_expired t1 self) = Ok true →
     outcome (ClientCredentials.is_expired t2 self) = Ok true)
  ∧
  (∀ self : UserCredentials.t,
     outcome (UserCredentials.is_expired t1 self) = Ok true →
     outcome (UserCredentials.is_expired t2 self) = Ok true).
Proof.
  intros Ht. split; intros self.
  - rewrite !client_is_expired_run. simpl.
    apply float_ge_mono. intros q. by apply float_sub_mono.
  - rewrite !user_is_expired_run. simpl.
    apply float_ge_mono. intros q. by apply float_sub_mono.
Qed.

Lemma is_expired_stays_true_witness :
  outcome (ClientCredentials.is_expired (Qc_of_Z 9999) client0) = Ok true
  ∧ outcome (UserCredentials.is_expired (Qc_of_Z 9999) user0) = Ok true.
Proof.
  assert (Ht : (Qc_of_Z 4600 ≤ Qc_of_Z 9999)%Qc)
    by (apply (proj1 (Z2Qc_inj_le 4600 9999)); lia).
  split.
  - apply (proj1 (is_expired_stays_true _ _ Ht) client0).
    vm_compute. reflexivity.
  - apply (proj2 (is_expired_stays_true _ _ Ht) user0).
    vm_compute. reflexivity.
Defined.

(** X13. The constructors do not check the type of [expires_in]: a payload
    whose [expires_in] is not a number (a string, [None], a list, a dict)
    is accepted, and every later [is_expired()] on the record raises
    [TypeError], leaving the record as it is. *)
Theorem non_numeric_lifetime_fails_at_is_expired
    (data : gmap string json) (cid cs : string) (t0 now : Qc) (v : json) :
  data !! "expires_in" = Some v →
  is_number v = false →
  (∀ c, ClientCredentials.__init__ data cid cs t0 = Ok c →
        ClientCredentials.is_expired now c = Run [] (Raise TypeError) c)
  ∧
  (∀ u, UserCredentials.__init__ data cid cs t0 = Ok u →
        UserCredentials.is_expired now u = Run [] (Raise TypeError) u).
Proof.
  intros Hv Hnum. split.
  - intros c Hinit.
    apply client_init_Ok in Hinit as (_ & _ & Hex & _).
    rewrite client_is_expired_run.
    replace (ClientCredentials._expires_in c) with v by congruence.
    by destruct v.
  - intros u Hinit.
    apply user_init_Ok in Hinit as (_ & _ & Hex & _).
    rewrite user_is_expired_run.
    replace (UserCredentials._expires_in u) with v by congruence.
    by destruct v.
Qed.

Lemma non_numeric_lifetime_fails_at_is_expired_witness :
  (∃ c, ClientCredentials.__init__ body_string_lifetime "id" "secret" (Qc_of_Z 0)
        = Ok c ∧
        ClientCredentials.is_expired (Qc_of_Z 5000) c = Run [] (Raise TypeError) c)
  ∧
  (∃ u, UserCredentials.__init__ body_string_lifetime "id" "secret" (Qc_of_Z 0)
        = Ok u ∧
        UserCredentials.is_expired (Qc_of_Z 5000) u = Run [] (Raise TypeError) u).
Proof.
  assert (Hv : body_string_lifetime !! "expires_in" = Some (JStr "3600"))
    by reflexivity.
  assert (Hnum : is_number (JStr "3600") = false) by reflexivity.
  destruct (non_numeric_lifetime_fails_at_is_expired body_string_lifetime
              "id" "secret" (Qc_of_Z 0) (Qc_of_Z 5000) _ Hv Hnum) as [Hc Hu].
  split.
  - eexists. split; [reflexivity|]. apply Hc. reflexivity.
  - eexists. split; [reflexivity|]. apply Hu. reflexivity.
Defined.

(** X14. A record whose [expires_in] is a number never makes
    [is_expired()] raise: it returns a boolean, is not suspended, and
    leaves the record as it is. *)
Theorem numeric_lifetime_never_raises (now : Qc) :
  (∀ self : ClientCredentials.t,
     is_number (ClientCredentials._expires_in self) = true →
     ∃ b, ClientCredentials.is_expired now self = Run [] (Ok b) self)
  ∧
  (∀ self : UserCredentials.t,
     is_number (UserCredentials._expires_in self) = true →
     ∃ b, UserCredentials.is_expired now self = Run [] (Ok b) self).
Proof.
  split; intros self Hnum.
  - rewrite client_is_expired_run.
    destruct (ClientCredentials._expires_in self); try discriminate;
      simpl; eauto.
  - rewrite user_is_expired_run.
    destruct (UserCredentials._expires_in self); try discriminate;
      simpl; eauto.
Qed.

Lemma numeric_lifetime_never_raises_witness :
  (∃ b, ClientCredentials.is_expired (Qc_of_Z 5000)
          (ClientCredentials.set_expires_in (JBool true) client0)
        = Run [] (Ok b) (ClientCredentials.set_expires_in (JBool true) client0))
  ∧ (∃ b, UserCredentials.is_expired (Qc_of_Z 5000) user0 = Run [] (Ok b) user0).
Proof.
  split.
  - apply (proj1 (numeric_lifetime_never_raises (Qc_of_Z 5000))). reflexivity.
  - apply (proj2 (numeric_lifetime_never_raises (Qc_of_Z 5000))). reflexivity.
Defined.

(** * What a refresh reads *)

Lemma signals_error_agree (b1 b2 : gmap string json) :
  b1 !! "error" = b2 !! "error" → signals_error b1 = signals_error b2.
Proof. unfold signals_error, dict_get. by intros ->. Qed.

(** X15. A refresh reads the body through the keys [error],
    [access_token], [token_type], [expires_in] (and [scope] for
    [UserCredentials]) only.  Two responses that agree on these keys --
    whatever their status, and whatever else their bodies hold, a new
    [refresh_token] included -- take [self] through the same states and
    both succeed or both fail. *)
Theorem refresh_reads_only_its_keys (s1 s2 : ClientSession) (now : Qc) :
  (∀ self : ClientCredentials.t,
     Forall (λ k, json_body (client_request s1 self) !! k
                  = json_body (client_request s2 self) !! k) client_read →
     observable (ClientCredentials.refresh s1 now self)
     = observable (ClientCredentials.refresh s2 now self)
     ∧ (outcome (ClientCredentials.refresh s1 now self) = Ok () ↔
        outcome (ClientCredentials.refresh s2 now self) = Ok ()))
  ∧
  (∀ self : UserCredentials.t,
     Forall (λ k, json_body (user_request s1 self) !! k
                  = json_body (user_request s2 self) !! k) user_read →
     observable (UserCredentials.refresh s1 now self)
     = observable (UserCredentials.refresh s2 now self)
     ∧ (outcome (UserCredentials.refresh s1 now self) = Ok () ↔
        outcome (UserCredentials.refresh s2 now self) = Ok ())).
Proof.
  split; intros self Hagree.
  - unfold client_read in Hagree.
    rewrite !Forall_cons in Hagree.
    destruct Hagree as (Herr & Ha & Hty & Hex & _).
    rewrite !client_refresh_run. cbv zeta.
    rewrite (signals_error_agree _ _ Herr), Ha, Hty, Hex.
    destruct (signals_error _); [done|].
    destruct (_ !! "access_token"); [|done].
    destruct (_ !! "token_type"); [|done].
    destruct (_ !! "expires_in"); done.
  - unfold user_read in Hagree.
    rewrite !Forall_cons in Hagree.
    destruct Hagree as (Herr & Ha & Hty & Hsc & Hex & _).
    rewrite !user_refresh_run. cbv zeta.
    rewrite (signals_error_agree _ _ Herr), Ha, Hty, Hsc, Hex.
    destruct (signals_error _); [done|].
    destruct (_ !! "access_token"); [|done].
    destruct (_ !! "token_type"); [|done].
    destruct (_ !! "scope"); [|done].
    destruct (_ !! "expires_in"); done.
Qed.

(** [body_rotated] is [body_AT2] with a new refresh token, here delivered
    with status 400. *)
Lemma refresh_reads_only_its_keys_witness :
  observable (UserCredentials.refresh (const_session (resp_bad body_rotated))
                (Qc_of_Z 2000) user0)
  = observable (UserCredentials.refresh (const_session (resp_ok body_AT2))
                  (Qc_of_Z 2000) user0).
Proof.
  apply (proj2 (refresh_reads_only_its_keys
                  (const_session (resp_bad body_rotated))
                  (const_session (resp_ok body_AT2)) (Qc_of_Z 2000)) user0).
  unfold user_read. repeat (apply Forall_cons_2 || apply Forall_nil_2);
    reflexivity.
Defined.

(** * A record without a refresh token *)

(** X16. A [UserCredentials] built by the constructor from a payload
    without [refresh_token] (or with a null one) holds [None] there, and
    its [refresh] exchanges the refresh-token grant with [refresh_token]
    set to [None]: the run depends on the session only through the answer
    to that POST, and when that answer carries an error it is the response
    of the [AuthenticationError] raised. *)
Theorem constructor_without_refresh_token
    (data : gmap string json) (cid cs : string) (t0 : Qc)
    (u : UserCredentials.t) :
  dict_get data "refresh_token" = JNull →
  UserCredentials.__init__ data cid cs t0 = Ok u →
  UserCredentials._refresh_token u = JNull
  ∧ (∀ (s1 s2 : ClientSession) (now : Qc),
       s1 TOKEN_URL (UserCredentials.grant JNull cid cs)
       = s2 TOKEN_URL (UserCredentials.grant JNull cid cs) →
       UserCredentials.refresh s1 now u = UserCredentials.refresh s2 now u)
  ∧ (∀ (s : ClientSession) (now : Qc),
       signals_error
         (json_body (s TOKEN_URL (UserCredentials.grant JNull cid cs))) = true →
       outcome (UserCredentials.refresh s now u)
       = Raise (AuthenticationError
                  (s TOKEN_URL (UserCredentials.grant JNull cid cs))
                  (json_body (s TOKEN_URL (UserCredentials.grant JNull cid cs))))).
Proof.
  intros Hrt Hinit.
  apply user_init_Ok in Hinit as (_ & _ & _ & _ & Hrt' & Hid & Hsecret & _).
  rewrite Hrt in Hrt'.
  assert (Hreq : ∀ s, user_request s u
                      = s TOKEN_URL (UserCredentials.grant JNull cid cs)).
  { intros s. unfold user_request. by rewrite Hrt', Hid, Hsecret. }
  split; [done|]. split.
  - intros s1 s2 now Hsame. by rewrite !user_refresh_run, !Hreq, Hsame.
  - intros s now Herr. rewrite user_refresh_run, Hreq. cbv zeta.
    by rewrite Herr.
Qed.

(** [user2] is built from [body_AT2], which has no [refresh_token]. *)
Lemma constructor_without_refresh_token_witness :
  UserCredentials._refresh_token user2 = JNull
  ∧ outcome (UserCredentials.refresh session_invalid_grant (Qc_of_Z 3000) user2)
    = Raise (AuthenticationError
               (session_invalid_grant TOKEN_URL
                  (UserCredentials.grant JNull "id" "secret"))
               body_invalid_grant).
Proof.
  destruct (constructor_without_refresh_token body_AT2 "id" "secret"
              (Qc_of_Z 2000) user2 eq_refl eq_refl) as (Hnone & _ & Herr).
  split; [exact Hnone|].
  apply (Herr session_invalid_grant (Qc_of_Z 3000)). reflexivity.
Defined.

(** * The constructors on an incomplete payload *)

(** X17. A constructor raises [KeyError] for the first key it cannot find,
    reading [access_token], [token_type], [expires_in] and then, for
    [UserCredentials], [scope] -- a different order from
    [UserCredentials.refresh], which reads [scope] before [expires_in]. *)
Theorem init_stops_at_first_missing_key
    (data : gmap string json) (cid cs : string) (now : Qc) :
  (data !! "access_token" = None →
   ClientCredentials.__init__ data cid cs now = Raise (KeyError "access_token") ∧
   UserCredentials.__init__ data cid cs now = Raise (KeyError "access_token"))
  ∧
  (is_Some (data !! "access_token") → data !! "token_type" = None →
   ClientCredentials.__init__ data cid cs now = Raise (KeyError "token_type") ∧
   UserCredentials.__init__ data cid cs now = Raise (KeyError "token_type"))
  ∧
  (is_Some (data !! "access_token") → is_Some (data !! "token_type") →
   data !! "expires_in" = None →
   ClientCredentials.__init__ data cid cs now = Raise (KeyError "expires_in") ∧
   UserCredentials.__init__ data cid cs now = Raise (KeyError "expires_in"))
  ∧
  (is_Some (data !! "access_token") → is_Some (data !! "token_type") →
   is_Some (data !! "expires_in") → data !! "scope" = None →
   UserCredentials.__init__ data cid cs now = Raise (KeyError "scope")).
Proof.
  unfold ClientCredentials.__init__, UserCredentials.__init__, dict_getitem,
    mbind, result_bind.
  repeat apply conj.
  - by intros ->.
  - by intros [a ->] ->.
  - by intros [a ->] [ty ->] ->.
  - by intros [a ->] [ty ->] [ex ->] ->.
Qed.

(** [body_token_only] lacks [token_type], [expires_in] and [scope]. *)
Lemma init_stops_at_first_missing_key_witness :
  ClientCredentials.__init__ body_token_only "id" "secret" (Qc_of_Z 0)
  = Raise (KeyError "token_type")
  ∧ UserCredentials.__init__ body_AT1 "id" "secret" (Qc_of_Z 0)
    = Raise (KeyError "scope").
Proof.
  split.
  - apply (proj1 (proj2 (init_stops_at_first_missing_key body_token_only
                           "id" "secret" (Qc_of_Z 0)))); [by eexists|reflexivity].
  - apply (proj2 (proj2 (proj2 (init_stops_at_first_missing_key body_AT1
                                  "id" "secret" (Qc_of_Z 0)))));
      try (by eexists); reflexivity.
Defined.
